(** * A shallow embedding of [run.py], the concurrent novel downloader

    The development follows the source file top-down: Python strings and
    the string methods the program calls, JSON values as decoded by
    [resp.json()], the exception and process-exit discipline of the
    interpreter, the three network clients ([get_book_metadata],
    [get_chapter_list], [download_chapter]), the worker-pool orchestrator
    inside [download_novel], the EPUB chapter loop and the argument loop of
    [main]. *)

From Stdlib Require Import List NArith ZArith Bool Arith Lia String Ascii.
From Stdlib Require Import Permutation Sorted DecimalString.
Import ListNotations.

Set Implicit Arguments.
Set Warnings "-register-all".

(** ** Python strings

    A Python [str] is a sequence of Unicode code points. Slices such as
    [name[:100]] and [book_name[1:-1]] count code points and [str.strip]
    removes Unicode white space, so strings are lists of code points and
    not byte strings. *)

Definition pystr := list N.

Module Utf8.

(** Literals of the source are written as they appear there and decoded
    from the UTF-8 bytes of the Rocq string. [pending] counts the
    continuation bytes still expected and [acc] holds the bits read. *)
Fixpoint decode (pending : nat) (acc : N) (s : string) : pystr :=
  match s with
  | EmptyString => []
  | String c t =>
      let b := N_of_ascii c in
      match pending with
      | O =>
          if (b <? 128)%N then b :: decode 0 0%N t
          else if (b <? 224)%N then decode 1 (b - 192)%N t
          else if (b <? 240)%N then decode 2 (b - 224)%N t
          else decode 3 (b - 240)%N t
      | S O => (acc * 64 + (b - 128))%N :: decode 0 0%N t
      | S p => decode p (acc * 64 + (b - 128))%N t
      end
  end.

End Utf8.

Definition u (s : string) : pystr := Utf8.decode 0 0%N s.

Arguments u : simpl never.

Definition pystr_eqb (a b : pystr) : bool :=
  if list_eq_dec N.eq_dec a b then true else false.

Module Str.

(** [Py_UNICODE_ISSPACE]: the characters [str.strip()] removes. *)
Definition isspace (c : N) : bool :=
  ((9 <=? c) && (c <=? 13) || (28 <=? c) && (c <=? 32)
   || (c =? 133) || (c =? 160) || (c =? 5760)
   || (8192 <=? c) && (c <=? 8202)
   || (c =? 8232) || (c =? 8233) || (c =? 8239) || (c =? 8287)
   || (c =? 12288))%N.

Fixpoint lstrip (s : pystr) : pystr :=
  match s with
  | [] => []
  | c :: t => if isspace c then lstrip t else s
  end.

Definition rstrip (s : pystr) : pystr := rev (lstrip (rev s)).

(** [s.strip()] *)
Definition strip (s : pystr) : pystr := rstrip (lstrip s).

(** [s.startswith(p)] *)
Fixpoint startswith (p s : pystr) : bool :=
  match p, s with
  | [], _ => true
  | _ :: _, [] => false
  | a :: p', b :: s' => (a =? b)%N && startswith p' s'
  end.

(** [s.endswith(p)] *)
Definition endswith (p s : pystr) : bool := startswith (rev p) (rev s).

(** [p in s] *)
Fixpoint contains (p s : pystr) : bool :=
  startswith p s ||
  match s with
  | [] => false
  | _ :: t => contains p t
  end.

(** The scan of [str.replace] for a non-empty [old]: left to right, each
    occurrence replaced and the scan resumed after it. [skip] counts the
    characters of a matched occurrence still to be dropped. *)
Fixpoint replace_scan (old new : pystr) (skip : nat) (s : pystr) : pystr :=
  match s with
  | [] => []
  | c :: t =>
      match skip with
      | S k => replace_scan old new k t
      | O =>
          if startswith old s
          then new ++ replace_scan old new (List.length old - 1) t
          else c :: replace_scan old new 0 t
      end
  end.

(** With an empty [old], Python inserts [new] before every character and
    at the end. *)
Fixpoint interleave (new s : pystr) : pystr :=
  match s with
  | [] => new
  | c :: t => new ++ c :: interleave new t
  end.

(** [s.replace(old, new)] *)
Definition replace (old new s : pystr) : pystr :=
  match old with
  | [] => interleave new s
  | _ :: _ => replace_scan old new 0 s
  end.

(** [s[1:-1]] *)
Definition slice_1_m1 (s : pystr) : pystr := removelast (tl s).

(** [s.split(sep)] for a one-character separator: [cur] is the piece
    being read, reversed. *)
Fixpoint split_go (sep : N) (cur : pystr) (s : pystr) : list pystr :=
  match s with
  | [] => [rev cur]
  | c :: t =>
      if (c =? sep)%N then rev cur :: split_go sep [] t
      else split_go sep (c :: cur) t
  end.

Definition split (sep : N) (s : pystr) : list pystr := split_go sep [] s.

(** [str(n)] for a non-negative integer. *)
Definition of_nat (n : nat) : pystr :=
  u (NilZero.string_of_uint (Nat.to_uint n)).

(** [str(z)] for an integer. *)
Definition of_Z (z : Z) : pystr :=
  match z with
  | Zneg p => u "-" ++ of_nat (Pos.to_nat p)
  | _ => of_nat (Z.to_nat z)
  end.

End Str.

(** ** Values decoded from JSON

    [resp.json()] yields [None], booleans, integers, strings, lists and
    dictionaries with string keys. Numbers with a fraction or an exponent
    are outside this model. A dictionary is kept as its list of items;
    [json.loads] leaves one item per key. *)

Inductive json : Type :=
| JNull
| JBool (b : bool)
| JInt (z : Z)
| JStr (s : pystr)
| JArr (l : list json)
| JObj (kv : list (pystr * json)).

Fixpoint lookup (k : pystr) (kv : list (pystr * json)) : option json :=
  match kv with
  | [] => None
  | (k', v) :: kv' => if pystr_eqb k k' then Some v else lookup k kv'
  end.

(** [bool(v)] *)
Definition truthy (v : json) : bool :=
  match v with
  | JNull => false
  | JBool b => b
  | JInt z => negb (z =? 0)%Z
  | JStr s => match s with [] => false | _ => true end
  | JArr l => match l with [] => false | _ => true end
  | JObj kv => match kv with [] => false | _ => true end
  end.

(** [a == b]: numbers compare by value across [bool] and [int], lists
    element by element, dictionaries item by item whatever the order. *)
Fixpoint py_eq (a b : json) {struct a} : bool :=
  match a, b with
  | JNull, JNull => true
  | JBool x, JBool y => Bool.eqb x y
  | JBool x, JInt z => (z =? (if x then 1 else 0))%Z
  | JInt z, JBool x => (z =? (if x then 1 else 0))%Z
  | JInt x, JInt y => (x =? y)%Z
  | JStr x, JStr y => pystr_eqb x y
  | JArr x, JArr y =>
      (fix all2 (x y : list json) {struct x} : bool :=
         match x, y with
         | [], [] => true
         | a' :: x', b' :: y' => py_eq a' b' && all2 x' y'
         | _, _ => false
         end) x y
  | JObj x, JObj y =>
      (List.length x =? List.length y)%nat &&
      (fix sub (x : list (pystr * json)) {struct x} : bool :=
         match x with
         | [] => true
         | (k, v) :: x' =>
             match lookup k y with
             | Some w => py_eq v w
             | None => false
             end && sub x'
         end) x
  | _, _ => false
  end.

(** ** Exceptions and process exit *)

Inductive pyexn : Type :=
| RequestException (descr : pystr)
    (** raised by [requests]: connection error, timeout, [HTTPError] *)
| JSONDecodeError (descr : pystr)
| AttributeError (v : json) (attr : pystr)
| KeyError (k : json)
| IndexError
| TypeError (v : json)
| OverflowError
| ValueError (descr : pystr)
| UnicodeEncodeError (text : pystr) (start : nat)
    (** a [ValueError]: the character of [text] at [start] cannot be
        encoded *)
| StopIteration.

(** A call returns, raises an exception derived from [Exception], or ends
    the process: [sys.exit(n)] raises [SystemExit], which [except
    Exception] does not catch and a bare [except:] does. *)
Inductive outcome (A : Type) : Type :=
| Ok (a : A)
| Raise (e : pyexn)
| Exit (code : Z).

Arguments Ok {A} a.
Arguments Raise {A} e.
Arguments Exit {A} code.

Definition obind {A B} (m : outcome A) (k : A -> outcome B) : outcome B :=
  match m with
  | Ok a => k a
  | Raise e => Raise e
  | Exit c => Exit c
  end.

Notation "x <- m ;; k" := (obind m (fun x => k))
  (at level 61, m at next level, right associativity).

(** ** Built-ins of the interpreter

    What the program takes from the interpreter and its Unicode database
    without defining it: the decimal value of a digit character (used by
    [\d] and by [int]), the limit on the digits [int] accepts (0: none),
    [str] of a list or dictionary and of an exception, the float
    formatting of [word_count / 10000] ([None]: [OverflowError]) and
    [os.path.abspath]. *)

Record Builtins : Type := {
  unicode_decimal : N -> option N;
  int_max_str_digits : nat;
  container_str : json -> pystr;
  exn_str : pyexn -> pystr;
  wan_str : Z -> option pystr;
  abspath : pystr -> pystr
}.

Section Values.

Variable B : Builtins.

(** [str(v)], as an f-string interpolates a value. *)
Definition py_str (v : json) : pystr :=
  match v with
  | JNull => u "None"
  | JBool true => u "True"
  | JBool false => u "False"
  | JInt z => Str.of_Z z
  | JStr s => s
  | JArr _ | JObj _ => container_str B v
  end.

(** [v.get(k, default)] *)
Definition py_get (v : json) (k : pystr) (default : json) : outcome json :=
  match v with
  | JObj kv => Ok (match lookup k kv with Some x => x | None => default end)
  | _ => Raise (AttributeError v (u "get"))
  end.

(** [v[k]] for a string [k] *)
Definition py_item (v : json) (k : pystr) : outcome json :=
  match v with
  | JObj kv =>
      match lookup k kv with
      | Some x => Ok x
      | None => Raise (KeyError (JStr k))
      end
  | _ => Raise (TypeError v)
  end.

(** [v[0]] *)
Definition py_item0 (v : json) : outcome json :=
  match v with
  | JArr (x :: _) => Ok x
  | JArr [] => Raise IndexError
  | JStr (c :: _) => Ok (JStr [c])
  | JStr [] => Raise IndexError
  | JObj _ => Raise (KeyError (JInt 0))
  | _ => Raise (TypeError v)
  end.

(** [k in v] for a string [k] *)
Definition py_in (k : pystr) (v : json) : outcome bool :=
  match v with
  | JObj kv => Ok (match lookup k kv with Some _ => true | None => false end)
  | JArr l => Ok (existsb (fun x => py_eq x (JStr k)) l)
  | JStr s => Ok (Str.contains k s)
  | _ => Raise (TypeError v)
  end.

(** The items a [for] loop over [v] visits. *)
Definition py_iter (v : json) : outcome (list json) :=
  match v with
  | JArr l => Ok l
  | JObj kv => Ok (map (fun p => JStr (fst p)) kv)
  | JStr s => Ok (map (fun c => JStr [c]) s)
  | _ => Raise (TypeError v)
  end.

End Values.

(** ** Regular expressions and [int]

    The three patterns of the program are matched by dedicated scanners.
    [\d] is any character with a decimal value in the Unicode database. *)

Definition quote : N := 34%N.

Section Patterns.

Variable B : Builtins.

Definition is_decimal (c : N) : bool :=
  match unicode_decimal B c with
  | Some _ => true
  | None => false
  end.

(** Length of the longest run of [\d] at the head of [s]. *)
Fixpoint digit_run (s : pystr) : nat :=
  match s with
  | [] => 0
  | c :: t => if is_decimal c then S (digit_run t) else 0
  end.

(** Length of a match of [<p idx="\d+">] at the head of [s]. The run of
    digits is taken whole: the character after it is not a digit, so a
    shorter run cannot be followed by the closing quote. *)
Definition pidx_match (s : pystr) : option nat :=
  let opening := u "<p idx=" ++ [quote] in
  if Str.startswith opening s then
    let r := skipn (List.length opening) s in
    let d := digit_run r in
    if ((1 <=? d)%nat && Str.startswith (quote :: u ">") (skipn d r))%bool
    then Some (List.length opening + d + 2)
    else None
  else None.

(** [re.sub(r'<p idx="\d+">', '', s)]: matches are removed from
    left to right; [skip] counts the characters of a match still to be
    dropped. *)
Fixpoint pidx_scan (skip : nat) (s : pystr) : pystr :=
  match s with
  | [] => []
  | c :: t =>
      match skip with
      | S k => pidx_scan k t
      | O =>
          match pidx_match s with
          | Some n => pidx_scan (n - 1) t
          | None => c :: pidx_scan 0 t
          end
      end
  end.

Definition strip_pidx (s : pystr) : pystr := pidx_scan 0 s.

(** The character class of [sanitize_filename]: backslash, slash, star,
    question mark, colon, double quote, angle brackets and bar. *)
Definition forbidden_in_filename (c : N) : bool :=
  existsb (N.eqb c) (quote :: u "\/*?:<>|").

(** [sanitize_filename]: [re.sub] accepts a string only. *)
Definition sanitize_filename (name : json) : outcome pystr :=
  match name with
  | JStr s =>
      Ok (firstn 100
            (Str.strip (filter (fun c => negb (forbidden_in_filename c)) s)))
  | _ => Raise (TypeError name)
  end.

(** [re.search(r'(\d{10,20})', s)]: the leftmost position followed by at
    least ten digits, and the first twenty of its run at most. *)
Fixpoint search_digits (s : pystr) : option pystr :=
  match s with
  | [] => None
  | _ :: t =>
      let d := digit_run s in
      if (10 <=? d)%nat then Some (firstn (Nat.min d 20) s)
      else search_digits t
  end.

Definition extract_book_id_from_url (url : pystr) : option pystr :=
  search_digits (Str.strip url).

(** *** [int(s)]

    The string is first made ASCII: characters below 127 stay, other
    white space becomes a blank and other decimal digits their ASCII
    digit; anything else is refused. *)
Fixpoint to_ascii_decimal (s : pystr) : option pystr :=
  match s with
  | [] => Some []
  | c :: t =>
      match
        (if (c <? 127)%N then Some c
         else if Str.isspace c then Some 32%N
         else option_map (fun d => (48 + d)%N) (unicode_decimal B c))
      with
      | Some c' => option_map (cons c') (to_ascii_decimal t)
      | None => None
      end
  end.

Definition ascii_space (c : N) : bool :=
  ((9 <=? c) && (c <=? 13) || (c =? 32))%N.

Fixpoint skip_spaces (s : pystr) : pystr :=
  match s with
  | [] => []
  | c :: t => if ascii_space c then skip_spaces t else s
  end.

Definition ascii_digit (c : N) : bool := ((48 <=? c) && (c <=? 57))%N.

(** Digits with single underscores between them: [prev] is the last
    character read, [acc] the value and [n] the number of digits so
    far. The rest of the string is returned with them. *)
Fixpoint scan_digits (prev : N) (acc : Z) (n : nat) (s : pystr)
  : option (Z * nat * pystr) :=
  let finish := if (prev =? 95)%N then None else Some (acc, n, s) in
  match s with
  | [] => finish
  | c :: t =>
      if ascii_digit c
      then scan_digits c (acc * 10 + Z.of_N (c - 48)) (S n) t
      else if (c =? 95)%N
           then if (prev =? 95)%N then None else scan_digits c acc n t
           else finish
  end.

Definition digits_within_limit (n : nat) : bool :=
  let m := int_max_str_digits B in
  negb ((0 <? m)%nat && (m <? n)%nat && (640 <? n)%nat).

Definition unsigned_int (s : pystr) : option Z :=
  match s with
  | [] => None
  | c :: _ =>
      if (c =? 95)%N then None
      else
        match scan_digits 0%N 0%Z 0 s with
        | Some (z, n, rest) =>
            match n, skip_spaces rest with
            | S _, [] => if digits_within_limit n then Some z else None
            | _, _ => None
            end
        | None => None
        end
  end.

(** [int(s)]; [None] stands for the [ValueError]. *)
Definition py_int (s : pystr) : option Z :=
  match to_ascii_decimal s with
  | None => None
  | Some a =>
      match skip_spaces a with
      | 43%N :: r => unsigned_int r
      | 45%N :: r => option_map Z.opp (unsigned_int r)
      | r => unsigned_int r
      end
  end.

End Patterns.

(** A reference interpreter for closed examples: ASCII digits only, the
    default digit limit, and empty descriptions. *)
Definition ascii_builtins : Builtins :=
  {| unicode_decimal := fun c =>
       if ((48 <=? c) && (c <=? 57))%N then Some (c - 48)%N else None;
     int_max_str_digits := 4300;
     container_str := fun _ => [];
     exn_str := fun _ => [];
     wan_str := fun _ => Some [];
     abspath := fun p => p |}.

(** ** Configuration, network and process state *)

Record config : Type := {
  default_format : pystr;
  default_threads : Z;
  api_timeout : Z;
  show_colors : bool;
  save_cover : bool
}.

Definition DEFAULT_CONFIG : config :=
  {| default_format := u "epub";
     default_threads := 4;
     api_timeout := 10;
     show_colors := true;
     save_cover := true |}.

Definition DISCLAIMER : pystr := u "本工具仅供学习交流".

Definition nl : pystr := [10%N].

Module Colors.
Definition esc (code : string) : pystr := 27%N :: u code.
Definition RESET := esc "[0m".
Definition RED := esc "[31m".
Definition GREEN := esc "[32m".
Definition YELLOW := esc "[33m".
Definition BLUE := esc "[34m".
Definition PURPLE := esc "[35m".
Definition CYAN := esc "[36m".

Definition wrap (c : config) (text color : pystr) : pystr :=
  if show_colors c then color ++ text ++ RESET else text.
End Colors.

(** What a request gives back: the status line, the decoded body (or the
    description of the [JSONDecodeError] that [resp.json()] raises) and the
    raw content. [status_descr] is the description of the [HTTPError]
    that [raise_for_status] raises for a 4xx or 5xx status. *)
Record response : Type := {
  status_code : Z;
  status_descr : pystr;
  json_body : pystr + json;
  content : list N
}.

(** A request raises or returns a response. *)
Definition net_result : Type := (pyexn + response)%type.

(** The remote API and the scheduler, as one run meets them. The chapter
    request of the task submitted at index [i] is answered by
    [post_down i]. The scheduler decides two orders: [dispatch] is the
    order in which the worker threads send the chapter requests, each
    when its task runs, and [completion] is the order in which
    [as_completed] hands back the tasks. *)
Record World : Type := {
  get_info : pystr -> net_result;
  get_directory : pystr -> net_result;
  post_down : nat -> json -> net_result;
  get_cover : json -> net_result;
  dispatch : list nat;
  completion : list nat
}.

Record metadata : Type := {
  book_name : json;
  author : json;
  summary : json;
  cover_url : json;
  category : json;
  status : json;
  word_count : json;
  readers : json
}.

(** [{"title": ..., "item_id": ...}] *)
Record chapter : Type := { title : json; item_id : json }.

(** [{"title": ..., "content": ...}] *)
Record chap_content : Type := { cc_title : json; cc_content : pystr }.

Record epub_html : Type := {
  eh_title : pystr;
  eh_file_name : pystr;
  eh_lang : pystr;
  eh_content : pystr
}.

Inductive epub_item : Type :=
| ItemHtml (h : epub_html)
| ItemNcx
| ItemNav.

Inductive spine_entry : Type :=
| SpineNav
| SpineHtml (h : epub_html).

Record epub_book : Type := {
  eb_title : json;
  eb_author : json;
  eb_language : pystr;
  eb_description : json;
  eb_cover : option (pystr * list N);
  eb_items : list epub_item;
  eb_toc : list epub_html;
  eb_spine : list spine_entry
}.

(** Observable actions, in the order the model records them. A write is
    recorded with its path and what the file holds when it is closed;
    failures of the file system and the rendering done inside [ebooklib]
    are outside the model. *)
Inductive event : Type :=
| EvPrint (line : pystr)
| EvGetInfo (book_id : pystr)
| EvGetDirectory (book_id : pystr)
| EvPostDown (item : json)
| EvGetCover (url : json)
| EvWriteTxt (path : pystr) (text : pystr)
| EvWriteEpub (path : pystr) (book : epub_book).

(** The module's globals and the trace of the run. *)
Record state : Type := {
  cfg : config;
  book_info_cache : list (pystr * metadata);
  trace : list event
}.

Definition initial_state : state :=
  {| cfg := DEFAULT_CONFIG; book_info_cache := []; trace := [] |}.

(** *** The monad of the program: state, exceptions and exit *)

Definition M (A : Type) : Type := state -> outcome A * state.

Definition ret {A} (a : A) : M A := fun s => (Ok a, s).

Definition bind {A B} (m : M A) (k : A -> M B) : M B :=
  fun s =>
    match m s with
    | (Ok a, s') => k a s'
    | (Raise e, s') => (Raise e, s')
    | (Exit c, s') => (Exit c, s')
    end.

Notation "x <~ m ;; k" := (bind m (fun x => k))
  (at level 61, m at next level, right associativity).
Notation "m ;;; k" := (bind m (fun _ => k))
  (at level 61, right associativity).

Definition lift {A} (o : outcome A) : M A := fun s => (o, s).

Definition emit (e : event) : M unit :=
  fun s =>
    (Ok tt, {| cfg := cfg s;
               book_info_cache := book_info_cache s;
               trace := trace s ++ [e] |}).

Definition print (line : pystr) : M unit := emit (EvPrint line).

Definition sys_exit {A} (code : Z) : M A := lift (Exit code).

Definition get_config : M config := fun s => (Ok (cfg s), s).

Definition set_config (c : config) : M unit :=
  fun s =>
    (Ok tt, {| cfg := c;
               book_info_cache := book_info_cache s;
               trace := trace s |}).

(** [try: m  except Exception as e: h e] *)
Definition try_except {A} (m : M A) (h : pyexn -> M A) : M A :=
  fun s =>
    match m s with
    | (Raise e, s') => h e s'
    | r => r
    end.

(** ** The network clients *)

Definition received (r : net_result) : outcome response :=
  match r with
  | inl e => Raise e
  | inr resp => Ok resp
  end.

(** [resp.raise_for_status()] *)
Definition raise_for_status (resp : response) : outcome unit :=
  if ((400 <=? status_code resp) && (status_code resp <? 600))%Z
  then Raise (RequestException (status_descr resp))
  else Ok tt.

(** [resp.json()] *)
Definition resp_json (resp : response) : outcome json :=
  match json_body resp with
  | inl descr => Raise (JSONDecodeError descr)
  | inr v => Ok v
  end.

(** [v.m(...)] for a string method [m]: only a string has it. *)
Definition as_str (attr : pystr) (v : json) : outcome pystr :=
  match v with
  | JStr s => Ok s
  | _ => Raise (AttributeError v attr)
  end.

Section Clients.

Variable B : Builtins.
Variable W : World.

(** The dictionary [get_book_metadata] starts from. *)
Definition default_metadata (book_id : pystr) : metadata :=
  {| book_name := JStr (u "未知书名_" ++ book_id);
     author := JStr (u "未知作者");
     summary := JStr (u "无简介");
     cover_url := JStr [];
     category := JStr (u "未知类型");
     status := JStr (u "未知状态");
     word_count := JStr (u "未知字数");
     readers := JStr (u "未知在读人数") |}.

(** [f"{book_data['word_count']/10000:.1f}万字"] *)
Definition format_word_count (v : json) : outcome json :=
  let of_int z :=
    match wan_str B z with
    | Some s => Ok (JStr (s ++ u "万字"))
    | None => Raise OverflowError
    end in
  match v with
  | JInt z => of_int z
  | JBool b => of_int (if b then 1 else 0)%Z
  | _ => Raise (TypeError v)
  end.

(** The book title without its enclosing 《 》. *)
Definition unbracket (name : json) : outcome json :=
  s <- as_str (u "startswith") name ;;
  if (Str.startswith (u "《") s && Str.endswith (u "》") s)%bool
  then Ok (JStr (Str.slice_1_m1 s))
  else Ok name.

(** The body of the [if] of [get_book_metadata]: the fields read from
    [data["data"][0]]. *)
Definition read_book_data (book_id : pystr) (data : json)
  : outcome metadata :=
  let d := default_metadata book_id in
  books <- py_item data (u "data") ;;
  book_data <- py_item0 books ;;
  name <- py_get book_data (u "book_name") (book_name d) ;;
  auth <- py_get book_data (u "author") (author d) ;;
  summ <- py_get book_data (u "abstract") (summary d) ;;
  shelf <- py_get book_data (u "bookshelf_thumb_url") JNull ;;
  cover <- (if truthy shelf then Ok shelf
            else py_get book_data (u "thumb_url") (JStr [])) ;;
  cat <- py_get book_data (u "category") (category d) ;;
  upd <- py_get book_data (u "update_status") JNull ;;
  wc <- py_get book_data (u "word_count") JNull ;;
  words <- (if truthy wc
            then v <- py_item book_data (u "word_count") ;;
                 format_word_count v
            else Ok (word_count d)) ;;
  rd <- py_get book_data (u "sub_info") (readers d) ;;
  name' <- unbracket name ;;
  Ok {| book_name := name';
        author := auth;
        summary := summ;
        cover_url := cover;
        category := cat;
        status := JStr (if py_eq upd (JStr (u "1"))
                        then u "连载中" else u "已完结");
        word_count := words;
        readers := rd |}.

(** The [try] block of [get_book_metadata] up to its [else]: [None] is
    the [else] branch, taken when the API code is not 0 or the data is
    empty. *)
Definition read_metadata (book_id : pystr) (r : net_result)
  : outcome (option metadata) :=
  resp <- received r ;;
  _ <- raise_for_status resp ;;
  data <- resp_json resp ;;
  code <- py_get data (u "code") JNull ;;
  if py_eq code (JInt 0) then
    books <- py_get data (u "data") JNull ;;
    if truthy books
    then m <- read_book_data book_id data ;; Ok (Some m)
    else Ok None
  else Ok None.

Fixpoint cache_lookup (book_id : pystr) (c : list (pystr * metadata))
  : option metadata :=
  match c with
  | [] => None
  | (k, m) :: c' => if pystr_eqb book_id k then Some m
                    else cache_lookup book_id c'
  end.

(** [book_info_cache[book_id] = metadata] *)
Definition cache_store (book_id : pystr) (m : metadata) : M unit :=
  fun s =>
    (Ok tt, {| cfg := cfg s;
               book_info_cache :=
                 (book_id, m)
                   :: filter (fun p => negb (pystr_eqb book_id (fst p)))
                        (book_info_cache s);
               trace := trace s |}).

Definition get_book_metadata (book_id : pystr) : M metadata :=
  fun s =>
    match cache_lookup book_id (book_info_cache s) with
    | Some m => (Ok m, s)
    | None =>
        (c <~ get_config ;;
         m <~ try_except
                (emit (EvGetInfo book_id) ;;;
                 r <~ lift (read_metadata book_id (get_info W book_id)) ;;
                 match r with
                 | Some m => ret m
                 | None =>
                     print (Colors.wrap c (u "API获取Text信息失败")
                              Colors.RED) ;;;
                     sys_exit 1
                 end)
                (fun e =>
                   print (Colors.wrap c (u "获取Text信息失败") Colors.RED
                            ++ u ": " ++ exn_str B e) ;;;
                   sys_exit 1) ;;
         cache_store book_id m ;;;
         ret m) s
    end.

(** The inner loop of [get_chapter_list] over one volume. *)
Fixpoint read_volume (items : list json) : outcome (list chapter) :=
  match items with
  | [] => Ok []
  | c :: rest =>
      t <- py_get c (u "title") (JStr []) ;;
      i <- py_item c (u "itemId") ;;
      more <- read_volume rest ;;
      Ok ({| title := t; item_id := i |} :: more)
  end.

(** The outer loop over the volumes. *)
Fixpoint read_volumes (volumes : list json) : outcome (list chapter) :=
  match volumes with
  | [] => Ok []
  | v :: rest =>
      items <- py_iter v ;;
      chs <- read_volume items ;;
      more <- read_volumes rest ;;
      Ok (chs ++ more)
  end.

(** The [try] block of [get_chapter_list]: [None] when the API code is
    not 0. *)
Definition read_chapter_list (r : net_result)
  : outcome (option (list chapter)) :=
  resp <- received r ;;
  data <- resp_json resp ;;
  code <- py_get data (u "code") JNull ;;
  if py_eq code (JInt 0) then
    d <- py_item data (u "data") ;;
    vols <- py_item d (u "chapterListWithVolume") ;;
    volumes <- py_iter vols ;;
    chs <- read_volumes volumes ;;
    Ok (Some chs)
  else Ok None.

Definition get_chapter_list (book_id : pystr) : M (list chapter) :=
  c <~ get_config ;;
  r <~ try_except
         (emit (EvGetDirectory book_id) ;;;
          lift (read_chapter_list (get_directory W book_id)))
         (fun e =>
            print (Colors.wrap c (u "获取章节列表失败") Colors.RED
                     ++ u ": " ++ exn_str B e) ;;;
            ret None) ;;
  match r with
  | Some chs => ret chs
  | None => sys_exit 1
  end.

(** The three [replace] calls, the [re.sub] and the [strip] of
    [download_chapter]. *)
Definition clean_content (raw : pystr) : pystr :=
  let clean :=
    Str.replace (u "&amp;") (u "&")
      (Str.replace (u "&quot;") [quote]
         (Str.replace (u "</p>") nl raw)) in
  Str.strip (strip_pidx B clean).

(** The [try] block of [download_chapter]: [None] when the [if] fails
    and control falls through to [return None]. *)
Definition read_chapter (r : net_result) : outcome (option pystr) :=
  resp <- received r ;;
  data <- resp_json resp ;;
  code <- py_get data (u "code") JNull ;;
  if py_eq code (JInt 0) then
    d <- py_get data (u "data") (JObj []) ;;
    has <- py_in (u "content") d ;;
    if has then
      d' <- py_item data (u "data") ;;
      raw <- py_item d' (u "content") ;;
      s <- as_str (u "replace") raw ;;
      Ok (Some (clean_content s))
    else Ok None
  else Ok None.

(** [download_chapter], given the answer to its one request. The bare
    [except: pass] swallows whatever the [try] block raises. *)
Definition download_chapter (r : net_result) : outcome (option pystr) :=
  match read_chapter r with
  | Ok c => Ok c
  | Raise _ => Ok None
  | Exit _ => Ok None
  end.

End Clients.

(** ** The orchestrator of [download_novel]

    One task per chapter is submitted to the pool; [fetch i] is what
    [future.result()] gives for the task submitted at index [i], and
    [order] lists the task indices as [as_completed] yields them. *)

Fixpoint find_index {A} (p : A -> bool) (l : list A) : option nat :=
  match l with
  | [] => None
  | x :: t => if p x then Some 0 else option_map S (find_index p t)
  end.

(** Equality of two chapter dictionaries. *)
Definition chapter_eq (a b : chapter) : bool :=
  py_eq (title a) (title b) && py_eq (item_id a) (item_id b).

Section Orchestrator.

Variable B : Builtins.

(** [f"【章节 {idx+1} 下载失败】"] *)
Definition failure_placeholder (idx : nat) : pystr :=
  u "【章节 " ++ Str.of_nat (idx + 1) ++ u " 下载失败】".

(** [f"【章节 {idx+1} 下载失败：{str(e)}】"] *)
Definition failure_placeholder_exn (idx : nat) (e : pyexn) : pystr :=
  u "【章节 " ++ Str.of_nat (idx + 1) ++ u " 下载失败：" ++ exn_str B e
    ++ u "】".

(** [content or f"【章节 {idx+1} 下载失败】"] *)
Definition content_or_placeholder (c : option pystr) (idx : nat) : pystr :=
  match c with
  | Some (x :: s) => x :: s
  | Some [] | None => failure_placeholder idx
  end.

(** [chapters[idx]] *)
Definition chapter_at (chapters : list chapter) (idx : nat)
  : outcome chapter :=
  match nth_error chapters idx with
  | Some c => Ok c
  | None => Raise IndexError
  end.

(** The body of the [for future in as_completed(futures)] loop: the
    record appended to [chap_contents] for the task of index [idx]. *)
Definition collect_one (chapters : list chapter)
           (fetch : nat -> outcome (option pystr)) (idx : nat)
  : outcome chap_content :=
  match fetch idx with
  | Ok c =>
      ch <- chapter_at chapters idx ;;
      Ok {| cc_title := title ch;
            cc_content := content_or_placeholder c idx |}
  | Raise e =>
      ch <- chapter_at chapters idx ;;
      Ok {| cc_title := title ch;
            cc_content := failure_placeholder_exn idx e |}
  | Exit code => Exit code
  end.

Fixpoint collect (chapters : list chapter)
         (fetch : nat -> outcome (option pystr)) (order : list nat)
  : outcome (list chap_content) :=
  match order with
  | [] => Ok []
  | idx :: rest =>
      x <- collect_one chapters fetch idx ;;
      xs <- collect chapters fetch rest ;;
      Ok (x :: xs)
  end.

(** [chapters.index(c)] for the object [c] stored at index [j0]: the
    first index holding an equal dictionary, [j0] at the latest. *)
Definition list_index (chapters : list chapter) (j0 : nat) (c : chapter)
  : nat :=
  match find_index (fun c' => chapter_eq c' c) (firstn j0 chapters) with
  | Some j => j
  | None => j0
  end.

(** The sort key:
    [chapters.index(next(c for c in chapters if c["title"] == x["title"]))]. *)
Definition sort_key (chapters : list chapter) (x : chap_content)
  : outcome nat :=
  match find_index (fun c => py_eq (title c) (cc_title x)) chapters with
  | None => Raise StopIteration
  | Some j0 =>
      c <- chapter_at chapters j0 ;;
      Ok (list_index chapters j0 c)
  end.

(** [list.sort(key=...)] computes the key of every element first. *)
Fixpoint decorate (chapters : list chapter) (l : list chap_content)
  : outcome (list (nat * chap_content)) :=
  match l with
  | [] => Ok []
  | x :: t =>
      k <- sort_key chapters x ;;
      t' <- decorate chapters t ;;
      Ok ((k, x) :: t')
  end.

(** The sort is stable and compares keys with [<] only: an element is
    placed after the elements of smaller key and before the others. *)
Fixpoint insert_keyed (x : nat * chap_content)
         (l : list (nat * chap_content)) : list (nat * chap_content) :=
  match l with
  | [] => [x]
  | y :: t =>
      if (fst y <? fst x)%nat then y :: insert_keyed x t else x :: y :: t
  end.

Definition sort_keyed (l : list (nat * chap_content))
  : list (nat * chap_content) :=
  fold_right insert_keyed [] l.

(** [chap_contents.sort(key=...)] *)
Definition sort_by_title (chapters : list chapter) (l : list chap_content)
  : outcome (list chap_content) :=
  d <- decorate chapters l ;;
  Ok (map snd (sort_keyed d)).

(** [ThreadPoolExecutor(max_workers=n)] *)
Definition thread_pool (max_workers : Z) : outcome unit :=
  if (max_workers <=? 0)%Z
  then Raise (ValueError (u "max_workers must be greater than 0"))
  else Ok tt.

(** The [with ThreadPoolExecutor(...)] block and the sort that
    follows it. *)
Definition orchestrate (max_workers : Z) (chapters : list chapter)
           (fetch : nat -> outcome (option pystr)) (order : list nat)
  : outcome (list chap_content) :=
  _ <- thread_pool max_workers ;;
  l <- collect chapters fetch order ;;
  sort_by_title chapters l.

End Orchestrator.

(** The orders [as_completed] can yield for [n] submitted tasks: every
    task once. *)
Definition completion_order (n : nat) (order : list nat) : Prop :=
  Permutation order (seq 0 n).

(** The orders in which the workers can send the requests of [n]
    submitted tasks: every task runs once. *)
Definition dispatch_order (n : nat) (order : list nat) : Prop :=
  Permutation order (seq 0 n).

(** ** The document builders *)

(** [c * n] for a one-character string *)
Definition rule (c : string) (n : nat) : pystr :=
  List.concat (repeat (u c) n).

Definition br : pystr := u "<br/>".

Section Builders.

Variable B : Builtins.
Variable W : World.

(** The code points UTF-8 has no encoding for: the surrogates, which
    [json.loads] yields for an unpaired [\ud800]..[\udfff] escape. *)
Definition surrogate (c : N) : bool :=
  ((55296 <=? c) && (c <=? 57343))%N.

(** The index of the first surrogate of a string. *)
Fixpoint first_surrogate (s : pystr) : option nat :=
  match s with
  | [] => None
  | c :: t =>
      if surrogate c then Some 0
      else match first_surrogate t with
           | Some i => Some (S i)
           | None => None
           end
  end.

(** The first [f.write] of [build_txt]. *)
Definition txt_head : pystr :=
  u "第0章：声明" ++ nl ++ nl ++ DISCLAIMER ++ nl ++ nl ++ rule "-" 50
    ++ nl ++ nl.

(** The second [f.write] of [build_txt]. *)
Definition txt_info (m : metadata) : pystr :=
  u "《" ++ py_str B (book_name m) ++ u "》" ++ nl
    ++ u "作者：" ++ py_str B (author m) ++ nl
    ++ u "类型：" ++ py_str B (category m) ++ u " | 状态："
    ++ py_str B (status m) ++ nl ++ nl
    ++ u "简介：" ++ py_str B (summary m) ++ nl ++ nl ++ rule "=" 50
    ++ nl ++ nl.

(** What the [for i, chap in enumerate(chapters)] loop of [build_txt]
    writes, one string per chapter; [i] is the index of the first chapter
    of [chapters]. *)
Fixpoint txt_chapters (i : nat) (chapters : list chap_content)
  : list pystr :=
  match chapters with
  | [] => []
  | chap :: rest =>
      (u "第" ++ Str.of_nat (i + 1) ++ u "章：" ++ py_str B (cc_title chap)
         ++ nl ++ nl ++ cc_content chap ++ nl ++ nl ++ rule "-" 50
         ++ nl ++ nl)
        :: txt_chapters (S i) rest
  end.

(** The last [f.write] of [build_txt]. *)
Definition txt_tail (n : nat) : pystr :=
  u "第" ++ Str.of_nat (n + 1) ++ u "章：再次声明"
    ++ nl ++ nl ++ DISCLAIMER ++ nl ++ nl ++ rule "=" 50 ++ nl.

(** The strings [build_txt] writes, in order. *)
Definition txt_writes (m : metadata) (chapters : list chap_content)
  : list pystr :=
  txt_head :: txt_info m
    :: txt_chapters 0 chapters ++ [txt_tail (List.length chapters)].

(** The whole text: what the file holds when every write succeeds. *)
Definition txt_document (m : metadata) (chapters : list chap_content)
  : pystr :=
  List.concat (txt_writes m chapters).

(** [f.write(s)] in turn for the strings of [writes], on a file opened
    with [encoding='utf-8'] that holds [written] so far: a string with a
    surrogate raises [UnicodeEncodeError] and adds nothing. The result is
    what the file holds at the end and the exception that stopped the
    writes, if any. *)
Fixpoint write_all (written : pystr) (writes : list pystr)
  : pystr * option pyexn :=
  match writes with
  | [] => (written, None)
  | s :: rest =>
      match first_surrogate s with
      | Some i => (written, Some (UnicodeEncodeError s i))
      | None => write_all (written ++ s) rest
      end
  end.

(** [open] creates the file; leaving the [with] block closes it with
    what was written, also when a write raised. *)
Definition build_txt (m : metadata) (chapters : list chap_content)
           (output_path : pystr) : M unit :=
  c <~ get_config ;;
  let (text, failure) := write_all [] (txt_writes m chapters) in
  emit (EvWriteTxt output_path text) ;;;
  match failure with
  | Some e => lift (Raise e)
  | None =>
      print (Colors.wrap c (u "TXT生成成功") Colors.GREEN ++ u "："
               ++ output_path)
  end.

Definition html (t file body : pystr) : epub_html :=
  {| eh_title := t; eh_file_name := file; eh_lang := u "zh-CN";
     eh_content := body |}.

Definition disclaim_start : epub_html :=
  html (u "声明") (u "disclaim_start.xhtml")
       (u "<h1>声明</h1><p>" ++ DISCLAIMER ++ u "</p>").

Definition disclaim_end : epub_html :=
  html (u "再次声明") (u "disclaim_end.xhtml")
       (u "<h1>再次声明</h1><p>" ++ DISCLAIMER ++ u "</p>").

Definition intro_page (m : metadata) : outcome epub_html :=
  s <- as_str (u "replace") (summary m) ;;
  Ok (html (u "Text信息") (u "intro.xhtml")
        (u "<h1>《" ++ py_str B (book_name m) ++ u "》</h1><p><strong>作者：</strong>"
           ++ py_str B (author m)
           ++ u "</p><p><strong>类型：</strong>" ++ py_str B (category m)
           ++ u " | <strong>状态：</strong>" ++ py_str B (status m)
           ++ u "</p><p><strong>简介：</strong>"
           ++ Str.replace nl br s ++ u "</p>")).

(** The page built for the chapter of index [i]. *)
Definition chapter_page (i : nat) (chap : chap_content) : epub_html :=
  html (u "第" ++ Str.of_nat (i + 1) ++ u "章：" ++ py_str B (cc_title chap))
       (u "chap_" ++ Str.of_nat (i + 1) ++ u ".xhtml")
       (u "<h2>第" ++ Str.of_nat (i + 1) ++ u "章："
          ++ py_str B (cc_title chap) ++ u "</h2><p>"
          ++ Str.replace nl br (cc_content chap) ++ u "</p>").

(** The [for i, chap in enumerate(chapters)] loop of [build_epub]: a
    chapter without content is skipped. *)
Fixpoint epub_chapters (i : nat) (chapters : list chap_content)
  : list epub_html :=
  match chapters with
  | [] => []
  | chap :: rest =>
      match cc_content chap with
      | [] => epub_chapters (S i) rest
      | _ :: _ => chapter_page i chap :: epub_chapters (S i) rest
      end
  end.

(** The cover request of [build_epub]; its bare [except: pass] swallows
    a failed request. *)
Definition fetch_cover (m : metadata) : M (option (pystr * list N)) :=
  c <~ get_config ;;
  if (save_cover c && truthy (cover_url m))%bool then
    emit (EvGetCover (cover_url m)) ;;;
    match get_cover W (cover_url m) with
    | inr resp =>
        if (status_code resp =? 200)%Z
        then ret (Some (u "cover.jpg", content resp))
        else ret None
    | inl _ => ret None
    end
  else ret None.

Definition build_epub (m : metadata) (chapters : list chap_content)
           (output_path : pystr) : M unit :=
  c <~ get_config ;;
  cover <~ fetch_cover m ;;
  intro <~ lift (intro_page m) ;;
  let pages :=
    disclaim_start :: intro :: epub_chapters 0 chapters ++ [disclaim_end] in
  emit (EvWriteEpub output_path
          {| eb_title := book_name m;
             eb_author := author m;
             eb_language := u "zh-CN";
             eb_description := summary m;
             eb_cover := cover;
             eb_items := map ItemHtml pages ++ [ItemNcx; ItemNav];
             eb_toc := pages;
             eb_spine := SpineNav :: map SpineHtml pages |}) ;;;
  print (Colors.wrap c (u "EPUB生成成功") Colors.GREEN ++ u "："
           ++ output_path).

End Builders.

(** ** [download_novel] and [main] *)

Section Program.

Variable B : Builtins.
Variable W : World.

(** The name of the output file, without directory and extension:
    [f"{sanitize_filename(book_name)}-{sanitize_filename(author)}"],
    followed by [f"_{book_id}"] when it contains 未知. *)
Definition output_name (m : metadata) (book_id : pystr) : outcome pystr :=
  n <- sanitize_filename (book_name m) ;;
  a <- sanitize_filename (author m) ;;
  let fname := n ++ u "-" ++ a in
  Ok (if Str.contains (u "未知") fname
      then fname ++ u "_" ++ book_id
      else fname).

(** [os.path.join('download', f"{fname}.{config['default_format']}")];
    the name holds no separator, so the join puts one before it. *)
Definition output_path (c : config) (fname : pystr) : pystr :=
  u "download/" ++ fname ++ u "." ++ default_format c.

(** What the task submitted at index [i] returns:
    [download_chapter(chap["item_id"])]. *)
Definition fetch_task (chapters : list chapter) (i : nat)
  : outcome (option pystr) :=
  match nth_error chapters i with
  | Some ch => download_chapter B (post_down W i (item_id ch))
  | None => Raise IndexError
  end.

(** The chapter requests of the tasks, in the order [order] in which the
    worker threads send them: the task of index [i] posts the [item_id]
    of [chapters[i]]. *)
Fixpoint emit_posts (chapters : list chapter) (order : list nat) : M unit :=
  match order with
  | [] => ret tt
  | i :: rest =>
      match nth_error chapters i with
      | Some ch => emit (EvPostDown (item_id ch))
      | None => ret tt
      end ;;;
      emit_posts chapters rest
  end.

(** The [with ThreadPoolExecutor(...)] block of [download_novel] and the
    sort after it. Leaving the block waits for every submitted task, so
    the requests are all sent by then; the results are collected in the
    order of completion. *)
Definition download_chapters (chapters : list chapter)
  : M (list chap_content) :=
  c <~ get_config ;;
  lift (thread_pool (default_threads c)) ;;;
  emit_posts chapters (dispatch W) ;;;
  l <~ lift (collect B chapters (fetch_task chapters) (completion W)) ;;
  lift (sort_by_title chapters l).

Definition download_novel (book_id : pystr) : M unit :=
  c <~ get_config ;;
  print (nl ++ Colors.wrap c (u "===== Text信息 =====") Colors.BLUE) ;;;
  m <~ get_book_metadata B W book_id ;;
  print (u "书名：" ++ Colors.wrap c (py_str B (book_name m)) Colors.PURPLE)
  ;;;
  print (u "作者：" ++ py_str B (author m)) ;;;
  print (u "类型：" ++ py_str B (category m) ++ u " | 状态："
           ++ py_str B (status m)) ;;;
  chapters <~ get_chapter_list B W book_id ;;
  match chapters with
  | [] => print (Colors.wrap c (u "未找到章节列表") Colors.RED)
  | _ :: _ =>
      let total_chapters := List.length chapters in
      print (nl ++ Colors.wrap c
               (u "发现 " ++ Str.of_nat total_chapters
                  ++ u " 个章节，开始下载...") Colors.GREEN) ;;;
      chap_contents <~ download_chapters chapters ;;
      fname <~ lift (output_name m book_id) ;;
      let path := output_path c fname in
      (if pystr_eqb (default_format c) (u "epub")
       then build_epub B W m chap_contents path
       else build_txt B m chap_contents path) ;;;
      print (nl ++ Colors.wrap c (u "下载完成！") Colors.GREEN
               ++ u "文件保存至：" ++ abspath B path)
  end.

(** One turn of the [for arg in sys.argv[2:]] loop of [main]. *)
Definition apply_arg (c : config) (arg : pystr) : config :=
  if pystr_eqb arg (u "--txt") then
    {| default_format := u "txt";
       default_threads := default_threads c;
       api_timeout := api_timeout c;
       show_colors := show_colors c;
       save_cover := save_cover c |}
  else if pystr_eqb arg (u "--epub") then
    {| default_format := u "epub";
       default_threads := default_threads c;
       api_timeout := api_timeout c;
       show_colors := show_colors c;
       save_cover := save_cover c |}
  else if Str.startswith (u "--threads=") arg then
    match py_int B (nth 1 (Str.split 61%N arg) []) with
    | Some n =>
        {| default_format := default_format c;
           default_threads := n;
           api_timeout := api_timeout c;
           show_colors := show_colors c;
           save_cover := save_cover c |}
    | None => c
    end
  else c.

Definition apply_args (c : config) (args : list pystr) : config :=
  fold_left apply_arg args c.

Definition usage : pystr :=
  u "用法: python downloader.py <TextID或链接> [--epub|--txt] [--threads=N]".

Definition main (argv : list pystr) : M unit :=
  match argv with
  | _ :: url :: args =>
      c <~ get_config ;;
      match extract_book_id_from_url B url with
      | Some (d :: ds) =>
          set_config (apply_args c args) ;;;
          download_novel (d :: ds)
      | Some [] | None =>
          print (Colors.wrap c (u "无法解析TextID，请检查输入") Colors.RED)
          ;;;
          sys_exit 1
      end
  | _ => print usage ;;; sys_exit 1
  end.

End Program.

(** ** Vocabulary of the properties *)

(** A decoded value is well formed when no dictionary in it holds a key
    twice. *)
Fixpoint wf_json (v : json) : bool :=
  match v with
  | JArr l =>
      (fix all (l : list json) : bool :=
         match l with
         | [] => true
         | x :: t => wf_json x && all t
         end) l
  | JObj kv =>
      (fix all (kv : list (pystr * json)) : bool :=
         match kv with
         | [] => true
         | (k, x) :: t =>
             wf_json x
             && negb (existsb (fun p => pystr_eqb k (fst p)) t)
             && all t
         end) kv
  | _ => true
  end.

Definition wf_titles (chapters : list chapter) : Prop :=
  Forall (fun c => wf_json (title c) = true) chapters.

(** No two chapters carry equal titles. *)
Definition distinct_titles (chapters : list chapter) : Prop :=
  forall i j ci cj,
    nth_error chapters i = Some ci ->
    nth_error chapters j = Some cj ->
    py_eq (title ci) (title cj) = true -> i = j.

(** The task of a chapter returned, or raised an exception. *)
Definition settled {A} (o : outcome A) : Prop :=
  match o with
  | Exit _ => False
  | _ => True
  end.

Definition no_chapter : chapter := {| title := JNull; item_id := JNull |}.

Section Expected.

Variable B : Builtins.

(** The content recorded for the task of index [i]. *)
Definition task_content (fetch : nat -> outcome (option pystr)) (i : nat)
  : pystr :=
  match fetch i with
  | Ok c => content_or_placeholder c i
  | Raise e => failure_placeholder_exn B i e
  | Exit _ => []
  end.

(** The record of the chapter of index [i]. *)
Definition record_of (chapters : list chapter)
           (fetch : nat -> outcome (option pystr)) (i : nat)
  : chap_content :=
  {| cc_title := title (nth i chapters no_chapter);
     cc_content := task_content fetch i |}.

End Expected.



(** A string without white space at either end. *)
Definition trimmed (s : pystr) : Prop :=
  match s with
  | [] => True
  | c :: _ => Str.isspace c = false /\ Str.isspace (last s c) = false
  end.

(** A chapter response with API code 0 and the raw text [raw]. *)
Definition chapter_response (raw : pystr) : response :=
  {| status_code := 200;
     status_descr := [];
     json_body :=
       inr (JObj [(u "code", JInt 0);
                  (u "data", JObj [(u "content", JStr raw)])]);
     content := [] |}.

(** The order of the sort keys. *)
Definition key_le (a b : nat * chap_content) : Prop := fst a <= fst b.

(** The trace holds no chapter request. *)
Definition no_chapter_request (t : list event) : Prop :=
  forall item, ~ In (EvPostDown item) t.

(** ** Books used in the examples *)

Definition chapter_of (t i : string) : chapter :=
  {| title := JStr (u t); item_id := JStr (u i) |}.

Definition result_of (t c : string) : chap_content :=
  {| cc_title := JStr (u t); cc_content := u c |}.

(** A chapter list in which the first and the third title are the same. *)
Definition repeated_titles : list chapter :=
  [chapter_of "Prologue" "7001"; chapter_of "Chapter 1" "7002";
   chapter_of "Prologue" "7003"].

(** A chapter list with three different titles. *)
Definition three_chapters : list chapter :=
  [chapter_of "One" "7001"; chapter_of "Two" "7002";
   chapter_of "Three" "7003"].

(** The chapter request of the task of index [i]. *)
Definition post_event (chapters : list chapter) (i : nat) : event :=
  EvPostDown (item_id (nth i chapters no_chapter)).

(** A fetcher returning [text-i] for the chapter of index [i]. *)
Definition text_stub (i : nat) : outcome (option pystr) :=
  Ok (Some (u "text-" ++ Str.of_nat i)).

(** The same fetcher, returning nothing for the chapter of index [k]. *)
Definition failing_stub (k i : nat) : outcome (option pystr) :=
  if (i =? k)%nat then Ok None else text_stub i.

(** A response with status 200 and the decoded body [v]. *)
Definition json_response (v : json) : response :=
  {| status_code := 200; status_descr := []; json_body := inr v;
     content := [] |}.

Definition refused : net_result :=
  inl (RequestException (u "Connection refused")).

(** A network on which every request is refused. *)
Definition offline_world : World :=
  {| get_info := fun _ => refused;
     get_directory := fun _ => refused;
     post_down := fun _ _ => refused;
     get_cover := fun _ => refused;
     dispatch := [];
     completion := [] |}.

(** A book whose metadata gives a title and no author, with three
    chapters in one volume; the requests are sent in the order 0, 2, 1
    and the tasks complete in the order 2, 0, 1. *)
Definition sample_world : World :=
  {| get_info := fun _ =>
       inr (json_response
              (JObj [(u "code", JInt 0);
                     (u "data",
                      JArr [JObj [(u "book_name", JStr (u "三体"))]])]));
     get_directory := fun _ =>
       inr (json_response
              (JObj [(u "code", JInt 0);
                     (u "data",
                      JObj [(u "chapterListWithVolume",
                             JArr [JArr [JObj [(u "title", JStr (u "One"));
                                               (u "itemId", JStr (u "7001"))];
                                         JObj [(u "title", JStr (u "Two"));
                                               (u "itemId", JStr (u "7002"))];
                                         JObj [(u "title", JStr (u "Three"));
                                               (u "itemId", JStr (u "7003"))]
                                  ]])])]));
     post_down := fun i _ =>
       inr (chapter_response (u "text-" ++ Str.of_nat i));
     get_cover := fun _ => refused;
     dispatch := [0; 2; 1];
     completion := [2; 0; 1] |}.

Definition sample_book_id : pystr := u "7143038691944959011".

(** A book whose chapter list holds one volume without chapters. *)
Definition empty_book_world : World :=
  {| get_info := get_info sample_world;
     get_directory := fun _ =>
       inr (json_response
              (JObj [(u "code", JInt 0);
                     (u "data",
                      JObj [(u "chapterListWithVolume", JArr [JArr []])])]));
     post_down := fun _ _ => refused;
     get_cover := fun _ => refused;
     dispatch := [];
     completion := [] |}.

(** A metadata answer in which the word count is a string. *)
Definition string_count_world : World :=
  {| get_info := fun _ =>
       inr (json_response
              (JObj [(u "code", JInt 0);
                     (u "data",
                      JArr [JObj [(u "book_name", JStr (u "三体"));
                                  (u "word_count", JStr (u "883000"))]])]));
     get_directory := fun _ => refused;
     post_down := fun _ _ => refused;
     get_cover := fun _ => refused;
     dispatch := [];
     completion := [] |}.

(** The chapter read from the items [kv] of a chapter object that has an
    [itemId]: the title defaults to the empty string. *)
Definition chapter_of_items (kv : list (pystr * json)) : chapter :=
  {| title := match lookup (u "title") kv with
              | Some t => t
              | None => JStr []
              end;
     item_id := match lookup (u "itemId") kv with
                | Some i => i
                | None => JNull
                end |}.

Definition has_item_id (kv : list (pystr * json)) : Prop :=
  lookup (u "itemId") kv <> None.

(** The value of a string of ASCII digits read in base ten. *)
Definition decimal_value (ds : pystr) : Z :=
  fold_left (fun acc c => (acc * 10 + Z.of_N (c - 48))%Z) ds 0%Z.

(** A configuration with another thread count. *)
Definition with_threads (c : config) (n : Z) : config :=
  {| default_format := default_format c;
     default_threads := n;
     api_timeout := api_timeout c;
     show_colors := show_colors c;
     save_cover := save_cover c |}.

(** The requests and the file writes of a trace, without what is
    printed. *)
Definition io_events (t : list event) : list event :=
  filter (fun e => match e with EvPrint _ => false | _ => true end) t.


(** The initial state after [--txt]. *)
Definition txt_state : state :=
  {| cfg := apply_arg ascii_builtins DEFAULT_CONFIG (u "--txt");
     book_info_cache := [];
     trace := [] |}.

(** The sort key of the record is [k]. *)
Definition has_key (chapters : list chapter) (k : nat) (r : chap_content)
  : bool :=
  match sort_key chapters r with
  | Ok k' => (k' =? k)%nat
  | _ => false
  end.

(** The record has a non-empty content. *)
Definition has_content (r : chap_content) : bool :=
  match cc_content r with
  | [] => false
  | _ :: _ => true
  end.

(** Metadata with the given title, author and summary. *)
Definition book (t a : json) (s : json) : metadata :=
  {| book_name := t; author := a; summary := s; cover_url := JStr [];
     category := JStr (u "科幻"); status := JStr (u "已完结");
     word_count := JStr []; readers := JStr [] |}.

(** The state after the action [m]. *)
Definition after {A} (m : M A) (st : state) : state := snd (m st).

(** Induction over decoded values, through the lists they nest. *)
Section JsonInduction.

Variable P : json -> Prop.
Hypothesis HNull : P JNull.
Hypothesis HBool : forall b, P (JBool b).
Hypothesis HInt : forall z, P (JInt z).
Hypothesis HStr : forall s, P (JStr s).
Hypothesis HArr : forall l, Forall P l -> P (JArr l).
Hypothesis HObj : forall kv, Forall (fun p => P (snd p)) kv -> P (JObj kv).

Fixpoint json_nested_ind (v : json) : P v :=
  match v with
  | JNull => HNull
  | JBool b => HBool b
  | JInt z => HInt z
  | JStr s => HStr s
  | JArr l =>
      HArr ((fix go (l : list json) : Forall P l :=
               match l with
               | [] => Forall_nil _
               | x :: t => Forall_cons x (json_nested_ind x) (go t)
               end) l)
  | JObj kv =>
      HObj ((fix go (kv : list (pystr * json))
              : Forall (fun p => P (snd p)) kv :=
               match kv with
               | [] => Forall_nil _
               | p :: t => Forall_cons p (json_nested_ind (snd p)) (go t)
               end) kv)
  end.

End JsonInduction.

(* ================================================================= *)
(** * Properties *)

(** ** Strings *)

Lemma pystr_eqb_eq (a b : pystr) : pystr_eqb a b = true <-> a = b.
Proof.
  unfold pystr_eqb. destruct (list_eq_dec N.eq_dec a b); split; congruence.
Qed.

Lemma pystr_eqb_refl (a : pystr) : pystr_eqb a a = true.
Proof. now apply pystr_eqb_eq. Qed.

Example u_unknown : u "未知" = [26410; 30693]%N.
Proof. reflexivity. Qed.

Example u_mixed : u "a《b" = [97; 12298; 98]%N.
Proof. reflexivity. Qed.

Example replace_ex :
  Str.replace (u "</p>") (u "|") (u "a</p></p>b</") = u "a||b</".
Proof. reflexivity. Qed.

Example replace_empty_old : Str.replace [] (u "-") (u "abc") = u "-a-b-c-".
Proof. reflexivity. Qed.

Example strip_ex : Str.strip (u "  　a b
 ") = u "a b".
Proof. reflexivity. Qed.

Example split_ex :
  Str.split 61%N (u "--threads=4=5") = [u "--threads"; u "4"; u "5"].
Proof. reflexivity. Qed.

Example of_nat_ex : Str.of_nat 120 = u "120" /\ Str.of_Z (-7) = u "-7".
Proof. split; reflexivity. Qed.

(** ** Decoded values *)

Lemma lookup_unique (kv : list (pystr * json)) :
  wf_json (JObj kv) = true ->
  forall k v, In (k, v) kv -> lookup k kv = Some v.
Proof.
  induction kv as [|[k0 v0] t IH]; intros Hwf k v Hin; [easy|].
  cbn in Hwf. apply andb_prop in Hwf as [Hwf Ht].
  apply andb_prop in Hwf as [_ Hfresh].
  apply negb_true_iff in Hfresh.
  destruct Hin as [Heq|Hin].
  - inversion Heq; subst. cbn. now rewrite pystr_eqb_refl.
  - cbn. destruct (pystr_eqb k k0) eqn:E.
    + apply pystr_eqb_eq in E; subst.
      assert (existsb (fun p => pystr_eqb k0 (fst p)) t = true) as Hex.
      { apply existsb_exists. exists (k0, v). split; [easy|].
        apply pystr_eqb_refl. }
      congruence.
    + now apply IH.
Qed.

Lemma wf_json_items (kv : list (pystr * json)) :
  wf_json (JObj kv) = true ->
  Forall (fun p => wf_json (snd p) = true) kv.
Proof.
  induction kv as [|[k0 v0] t IH]; intros Hwf; [constructor|].
  cbn in Hwf. apply andb_prop in Hwf as [Hwf Ht].
  apply andb_prop in Hwf as [Hv _].
  constructor; [exact Hv|now apply IH].
Qed.

Lemma wf_json_elements (l : list json) :
  wf_json (JArr l) = true -> Forall (fun x => wf_json x = true) l.
Proof.
  induction l as [|x t IH]; intros Hwf; [constructor|].
  cbn in Hwf. apply andb_prop in Hwf as [Hx Ht].
  constructor; [exact Hx|now apply IH].
Qed.

(** [==] is reflexive on well-formed values. *)
Lemma py_eq_refl (v : json) : wf_json v = true -> py_eq v v = true.
Proof.
  induction v as [| b | z | s | l IH | kv IH] using json_nested_ind;
    intros Hwf; cbn.
  - reflexivity.
  - now destruct b.
  - apply Z.eqb_refl.
  - apply pystr_eqb_refl.
  - apply wf_json_elements in Hwf.
    induction l as [|x t IHt]; [reflexivity|].
    inversion IH; subst. inversion Hwf; subst.
    apply andb_true_intro. split; auto.
  - rewrite Nat.eqb_refl. cbn.
    pose proof (lookup_unique kv Hwf) as Hlook.
    apply wf_json_items in Hwf.
    assert (forall x : list (pystr * json),
               incl x kv ->
               (fix sub (x : list (pystr * json)) : bool :=
                  match x with
                  | [] => true
                  | (k, v) :: x' =>
                      match lookup k kv with
                      | Some w => py_eq v w
                      | None => false
                      end && sub x'
                  end) x = true) as Hsub.
    { induction x as [|[k v] x' IHx]; intros Hincl; [reflexivity|].
      assert (In (k, v) kv) as Hin by (apply Hincl; now left).
      rewrite (Hlook k v Hin).
      rewrite Forall_forall in IH, Hwf.
      pose proof (IH (k, v) Hin (Hwf (k, v) Hin)) as Hrefl.
      cbn in Hrefl. rewrite Hrefl. cbn.
      apply IHx. intros p Hp. apply Hincl. now right. }
    apply Hsub, incl_refl.
Qed.

(** ** Searching and sorting *)

Lemma find_index_some {A} (p : A -> bool) (l : list A) (j : nat) :
  find_index p l = Some j ->
  (exists x, nth_error l j = Some x /\ p x = true) /\
  (forall i y, i < j -> nth_error l i = Some y -> p y = false).
Proof.
  revert j. induction l as [|a t IH]; intros j Hj; cbn in Hj; [easy|].
  destruct (p a) eqn:Ea.
  - inversion Hj; subst. split; [now exists a|]. intros i y Hi. lia.
  - destruct (find_index p t) as [k|] eqn:Ek; [|easy].
    inversion Hj; subst. destruct (IH k eq_refl) as [Hx Hbefore].
    split; [exact Hx|]. intros [|i] y Hi Hy; cbn in Hy.
    + now inversion Hy; subst.
    + apply (Hbefore i); [lia|exact Hy].
Qed.

Lemma find_index_none {A} (p : A -> bool) (l : list A) :
  find_index p l = None -> forall x, In x l -> p x = false.
Proof.
  induction l as [|a t IH]; intros Hn x Hin; [easy|]. cbn in Hn.
  destruct (p a) eqn:Ea; [easy|].
  destruct (find_index p t) eqn:Ek; [easy|].
  destruct Hin as [<-|Hin]; [exact Ea|now apply IH].
Qed.

Lemma find_index_exists {A} (p : A -> bool) (l : list A) (x : A) :
  In x l -> p x = true -> exists j, find_index p l = Some j.
Proof.
  intros Hin Hp. destruct (find_index p l) as [j|] eqn:E; [now exists j|].
  rewrite (find_index_none p l E x Hin) in Hp. discriminate.
Qed.

Lemma insert_keyed_perm (x : nat * chap_content) l :
  Permutation (insert_keyed x l) (x :: l).
Proof.
  induction l as [|y t IH]; cbn [insert_keyed]; [reflexivity|].
  destruct (fst y <? fst x); [|reflexivity].
  rewrite IH. apply perm_swap.
Qed.

Lemma sort_keyed_perm l : Permutation (sort_keyed l) l.
Proof.
  induction l as [|x t IH]; cbn; [reflexivity|].
  rewrite insert_keyed_perm. now constructor.
Qed.

Lemma insert_keyed_sorted (x : nat * chap_content) l :
  StronglySorted key_le l -> StronglySorted key_le (insert_keyed x l).
Proof.
  induction l as [|y t IH]; intros Hs; cbn [insert_keyed].
  - constructor; constructor.
  - apply StronglySorted_inv in Hs as [Ht Hy].
    destruct (fst y <? fst x) eqn:E.
    + apply Nat.ltb_lt in E. constructor; [now apply IH|].
      apply Forall_forall. intros z Hz.
      apply (Permutation_in _ (insert_keyed_perm x t)) in Hz.
      destruct Hz as [<-|Hz]; [unfold key_le; lia|].
      rewrite Forall_forall in Hy. now apply Hy.
    + apply Nat.ltb_ge in E. constructor.
      * now constructor.
      * constructor; [exact E|].
        apply Forall_forall. intros z Hz. rewrite Forall_forall in Hy.
        specialize (Hy z Hz). unfold key_le in *. lia.
Qed.

Lemma sort_keyed_sorted l : StronglySorted key_le (sort_keyed l).
Proof.
  induction l as [|x t IH]; cbn; [constructor|].
  now apply insert_keyed_sorted.
Qed.

(** A strictly increasing list is determined by its elements. *)
Lemma increasing_unique (l1 l2 : list nat) :
  StronglySorted lt l1 -> StronglySorted lt l2 -> Permutation l1 l2 ->
  l1 = l2.
Proof.
  revert l2. induction l1 as [|a t1 IH]; intros l2 H1 H2 Hp.
  - now apply Permutation_nil in Hp.
  - destruct l2 as [|b t2].
    + symmetry in Hp. now apply Permutation_nil in Hp.
    + apply StronglySorted_inv in H1 as [Ht1 Ha].
      apply StronglySorted_inv in H2 as [Ht2 Hb].
      rewrite Forall_forall in Ha, Hb.
      assert (a = b) as ->.
      { assert (In a (b :: t2)) as Hia
            by (apply (Permutation_in _ Hp); now left).
        assert (In b (a :: t1)) as Hib
            by (apply (Permutation_in _ (Permutation_sym Hp)); now left).
        destruct Hia as [->|Hia]; [reflexivity|].
        destruct Hib as [->|Hib]; [reflexivity|].
        specialize (Ha b Hib). specialize (Hb a Hia). lia. }
      f_equal. apply IH; try assumption.
      now apply Permutation_cons_inv in Hp.
Qed.

Lemma seq_increasing (start n : nat) : StronglySorted lt (seq start n).
Proof.
  revert start. induction n as [|n IH]; intros start; cbn; constructor.
  - apply IH.
  - apply Forall_forall. intros x Hx. apply in_seq in Hx. lia.
Qed.

(** Sorted keys without repetition are strictly increasing. *)
Lemma sorted_nodup_increasing (l : list (nat * chap_content)) :
  StronglySorted key_le l -> NoDup (map fst l) ->
  StronglySorted lt (map fst l).
Proof.
  induction l as [|x t IH]; intros Hs Hn; cbn; [constructor|].
  apply StronglySorted_inv in Hs as [Ht Hx].
  inversion Hn as [|? ? Hnot Hn']; subst.
  constructor; [now apply IH|].
  apply Forall_forall. intros k Hk.
  apply in_map_iff in Hk as Hk'. destruct Hk' as [y [<- Hy]].
  rewrite Forall_forall in Hx. specialize (Hx y Hy). unfold key_le in Hx.
  assert (fst x <> fst y) by (intros E; apply Hnot; now rewrite E).
  lia.
Qed.

(** Sorting records keyed by their own index puts them in index order. *)
Lemma sort_keyed_indexed (f : nat -> chap_content) (n : nat) order :
  Permutation order (seq 0 n) ->
  sort_keyed (map (fun i => (i, f i)) order) = map (fun i => (i, f i)) (seq 0 n).
Proof.
  intros Hp.
  set (g := fun i => (i, f i)).
  set (s := sort_keyed (map g order)).
  assert (Permutation s (map g order)) as Hs by apply sort_keyed_perm.
  assert (map fst (map g order) = order) as Hfst.
  { rewrite map_map. cbn. apply map_id. }
  assert (Permutation (map fst s) (seq 0 n)) as Hkeys.
  { rewrite <- Hp, <- Hfst. now apply Permutation_map. }
  assert (map fst s = seq 0 n) as Heq.
  { apply increasing_unique; [|apply seq_increasing|exact Hkeys].
    apply sorted_nodup_increasing; [apply sort_keyed_sorted|].
    apply (Permutation_NoDup (Permutation_sym Hkeys)), seq_NoDup. }
  assert (Forall (fun p => p = g (fst p)) s) as Hg.
  { apply Forall_forall. intros p Hin.
    apply (Permutation_in _ Hs) in Hin.
    apply in_map_iff in Hin as [i [<- _]]. reflexivity. }
  rewrite <- Heq, map_map.
  clear - Hg. induction s as [|p t IH]; [reflexivity|].
  inversion Hg; subst. cbn. f_equal; [assumption|now apply IH].
Qed.

(** ** The collection loop and the sort *)

Section OrchestratorFacts.

Variable B : Builtins.
Variable chapters : list chapter.
Variable fetch : nat -> outcome (option pystr).

Lemma chapter_at_nth (i : nat) :
  i < List.length chapters ->
  chapter_at chapters i = Ok (nth i chapters no_chapter)
  /\ nth_error chapters i = Some (nth i chapters no_chapter).
Proof.
  intros Hi. unfold chapter_at.
  rewrite (nth_error_nth' chapters no_chapter Hi). now split.
Qed.

Lemma collect_one_settled (i : nat) :
  i < List.length chapters -> settled (fetch i) ->
  collect_one B chapters fetch i = Ok (record_of B chapters fetch i).
Proof.
  intros Hi Hs. unfold collect_one, record_of, task_content.
  destruct (chapter_at_nth Hi) as [Hat _].
  destruct (fetch i); [| |easy]; now rewrite Hat.
Qed.

Lemma collect_settled (order : list nat) :
  Forall (fun i => i < List.length chapters) order ->
  (forall i, i < List.length chapters -> settled (fetch i)) ->
  collect B chapters fetch order
  = Ok (map (record_of B chapters fetch) order).
Proof.
  intros Hr Hs. induction order as [|i rest IH]; [reflexivity|].
  inversion Hr; subst. cbn [collect map].
  rewrite collect_one_settled by auto. cbn.
  now rewrite IH.
Qed.

(** A title taken from the chapter list gets a sort key. *)
Lemma sort_key_found (x : chap_content) (c : chapter) :
  In c chapters -> py_eq (title c) (cc_title x) = true ->
  exists k, sort_key chapters x = Ok k.
Proof.
  intros Hin Heq. unfold sort_key.
  destruct (find_index_exists (fun c => py_eq (title c) (cc_title x))
              chapters c Hin Heq) as [j Hj].
  rewrite Hj. apply find_index_some in Hj as [[y [Hy _]] _].
  unfold chapter_at. rewrite Hy. cbn. eauto.
Qed.

Lemma decorate_found (l : list chap_content) :
  Forall (fun x => exists c, In c chapters
                             /\ py_eq (title c) (cc_title x) = true) l ->
  exists d, decorate chapters l = Ok d /\ map snd d = l.
Proof.
  induction l as [|x t IH]; intros Hf; [now exists []|].
  inversion Hf as [|? ? [c [Hin Heq]] Ht]; subst.
  destruct (sort_key_found x c Hin Heq) as [k Hk].
  destruct (IH Ht) as [d [Hd Hsnd]].
  exists ((k, x) :: d). cbn [decorate]. rewrite Hk. cbn. rewrite Hd. cbn.
  split; [reflexivity|]. now rewrite Hsnd.
Qed.

Lemma record_title_found (i : nat) :
  wf_titles chapters -> i < List.length chapters ->
  exists c, In c chapters
            /\ py_eq (title c) (cc_title (record_of B chapters fetch i))
               = true.
Proof.
  intros Hwf Hi. exists (nth i chapters no_chapter).
  assert (In (nth i chapters no_chapter) chapters) as Hin
      by now apply nth_In.
  split; [exact Hin|]. cbn. apply py_eq_refl.
  unfold wf_titles in Hwf. rewrite Forall_forall in Hwf. now apply Hwf.
Qed.

Lemma completion_in_range (order : list nat) :
  completion_order (List.length chapters) order ->
  Forall (fun i => i < List.length chapters) order.
Proof.
  intros Hp. apply Forall_forall. intros i Hi.
  apply (Permutation_in _ Hp) in Hi. apply in_seq in Hi. lia.
Qed.

(** Whatever the completion order, the orchestrator returns, and its
    result holds the record of every chapter once. *)
Lemma orchestrate_returns (max_workers : Z) (order : list nat) :
  (1 <= max_workers)%Z ->
  completion_order (List.length chapters) order ->
  (forall i, i < List.length chapters -> settled (fetch i)) ->
  wf_titles chapters ->
  exists out,
    orchestrate B max_workers chapters fetch order = Ok out
    /\ Permutation out
         (map (record_of B chapters fetch) (seq 0 (List.length chapters))).
Proof.
  intros Hw Hp Hs Hwf. unfold orchestrate, thread_pool.
  destruct (Z.leb_spec max_workers 0) as [Hle|_]; [lia|]. cbn.
  pose proof (completion_in_range Hp) as Hr.
  rewrite (collect_settled Hr Hs). cbn. unfold sort_by_title.
  destruct (decorate_found (l := map (record_of B chapters fetch) order))
    as [d [Hd Hsnd]].
  { apply Forall_forall. intros x Hx.
    apply in_map_iff in Hx as [i [<- Hi]].
    rewrite Forall_forall in Hr. now apply record_title_found, Hr. }
  rewrite Hd. cbn. eexists. split; [reflexivity|].
  rewrite (Permutation_map snd (sort_keyed_perm d)), Hsnd.
  now apply Permutation_map.
Qed.

(** With pairwise distinct titles the sort key of a record is the index
    of its chapter. *)
Lemma sort_key_distinct (i : nat) :
  distinct_titles chapters -> wf_titles chapters ->
  i < List.length chapters ->
  sort_key chapters (record_of B chapters fetch i) = Ok i.
Proof.
  intros Hd Hwf Hi. unfold sort_key.
  destruct (chapter_at_nth Hi) as [Hat Hnth].
  destruct (record_title_found Hwf Hi) as [c [Hin Heq]].
  destruct (find_index_exists
              (fun c => py_eq (title c)
                          (cc_title (record_of B chapters fetch i)))
              chapters c Hin Heq) as [j Hj].
  rewrite Hj. apply find_index_some in Hj as [[y [Hy Hpy]] _].
  cbn in Hpy. assert (j = i) as -> by (eapply Hd; eauto).
  rewrite Hat. cbn. f_equal. unfold list_index.
  destruct (find_index _ (firstn i chapters)) as [k|] eqn:Ek;
    [|reflexivity].
  apply find_index_some in Ek as [[z [Hz Hpz]] _].
  assert (k < i) as Hk.
  { assert (k < List.length (firstn i chapters)) as Hlen
        by (apply nth_error_Some; congruence).
    rewrite length_firstn in Hlen. lia. }
  rewrite nth_error_firstn in Hz.
  destruct (Nat.ltb_spec k i) as [_|Hge]; [|lia].
  unfold chapter_eq in Hpz. apply andb_prop in Hpz as [Hpz _].
  assert (k = i) by (apply (Hd k i z _ Hz Hnth Hpz)). lia.
Qed.

Lemma decorate_distinct (order : list nat) :
  distinct_titles chapters -> wf_titles chapters ->
  Forall (fun i => i < List.length chapters) order ->
  decorate chapters (map (record_of B chapters fetch) order)
  = Ok (map (fun i => (i, record_of B chapters fetch i)) order).
Proof.
  intros Hd Hwf Hr. induction order as [|i rest IH]; [reflexivity|].
  inversion Hr; subst. cbn [decorate map].
  rewrite sort_key_distinct by assumption. cbn.
  now rewrite IH.
Qed.

(** With pairwise distinct titles the result is in chapter order,
    whatever the completion order. *)
Lemma orchestrate_distinct (max_workers : Z) (order : list nat) :
  (1 <= max_workers)%Z ->
  completion_order (List.length chapters) order ->
  (forall i, i < List.length chapters -> settled (fetch i)) ->
  wf_titles chapters -> distinct_titles chapters ->
  orchestrate B max_workers chapters fetch order
  = Ok (map (record_of B chapters fetch) (seq 0 (List.length chapters))).
Proof.
  intros Hw Hp Hs Hwf Hd. unfold orchestrate, thread_pool.
  destruct (Z.leb_spec max_workers 0) as [Hle|_]; [lia|]. cbn.
  pose proof (completion_in_range Hp) as Hr.
  rewrite (collect_settled Hr Hs). cbn. unfold sort_by_title.
  rewrite (decorate_distinct Hd Hwf Hr). cbn.
  rewrite (@sort_keyed_indexed (record_of B chapters fetch) _ _ Hp).
  now rewrite map_map.
Qed.

End OrchestratorFacts.

(** ** The orchestrator: order, count and isolation *)

Lemma failure_placeholder_nonempty (i : nat) : failure_placeholder i <> [].
Proof.
  unfold failure_placeholder.
  destruct (u "【章节 ") eqn:E; [vm_compute in E|]; discriminate.
Qed.

Lemma failure_placeholder_exn_nonempty B (i : nat) (e : pyexn) :
  failure_placeholder_exn B i e <> [].
Proof.
  unfold failure_placeholder_exn.
  destruct (u "【章节 ") eqn:E; [vm_compute in E|]; discriminate.
Qed.

Lemma task_content_nonempty B fetch (i : nat) :
  settled (fetch i) -> task_content B fetch i <> [].
Proof.
  unfold task_content. destruct (fetch i) as [[[|x s]|]|e|c]; cbn; intros H.
  - apply failure_placeholder_nonempty.
  - discriminate.
  - apply failure_placeholder_nonempty.
  - apply failure_placeholder_exn_nonempty.
  - contradiction.
Qed.

(** What a record holds: the fetched text, or one of the two
    placeholders. *)
Lemma task_content_cases B fetch (i : nat) :
  settled (fetch i) ->
  (exists c, fetch i = Ok (Some c) /\ c <> []
             /\ task_content B fetch i = c)
  \/ ((fetch i = Ok None \/ fetch i = Ok (Some []))
      /\ task_content B fetch i = failure_placeholder i)
  \/ (exists e, fetch i = Raise e
                /\ task_content B fetch i = failure_placeholder_exn B i e).
Proof.
  unfold task_content. destruct (fetch i) as [[[|x s]|]|e|c]; cbn; intros H.
  - right; left. auto.
  - left. exists (x :: s). repeat split. discriminate.
  - right; left. auto.
  - right; right. now exists e.
  - contradiction.
Qed.

(** C1. With the chapter list [Prologue, Chapter 1, Prologue] the
    orchestrator returns the titles [Prologue, Prologue, Chapter 1]: the
    second element does not carry the title of the second chapter. *)
Theorem C1_repeated_titles_out_of_order :
  orchestrate ascii_builtins 4 repeated_titles text_stub [0; 1; 2]
  = Ok [result_of "Prologue" "text-0"; result_of "Prologue" "text-2";
        result_of "Chapter 1" "text-1"]
  /\ map title repeated_titles
     = [JStr (u "Prologue"); JStr (u "Chapter 1"); JStr (u "Prologue")].
Proof. split; reflexivity. Qed.

(** C2. For every chapter list, every pool size of at least 1 and every
    completion order, the orchestrator returns as many records as there
    are chapters: the records of the chapters, each once, each with the
    title of its chapter and either the fetched text or a placeholder. *)
Theorem C2_one_record_per_chapter
        B (chapters : list chapter) fetch (max_workers : Z) order :
  (1 <= max_workers)%Z ->
  completion_order (List.length chapters) order ->
  (forall i, i < List.length chapters -> settled (fetch i)) ->
  wf_titles chapters ->
  exists out,
    orchestrate B max_workers chapters fetch order = Ok out
    /\ List.length out = List.length chapters
    /\ Permutation out
         (map (record_of B chapters fetch) (seq 0 (List.length chapters)))
    /\ forall i ch,
        nth_error chapters i = Some ch ->
        cc_title (record_of B chapters fetch i) = title ch
        /\ ((exists c, fetch i = Ok (Some c) /\ c <> []
                       /\ cc_content (record_of B chapters fetch i) = c)
            \/ cc_content (record_of B chapters fetch i)
               = failure_placeholder i
            \/ (exists e, fetch i = Raise e
                          /\ cc_content (record_of B chapters fetch i)
                             = failure_placeholder_exn B i e)).
Proof.
  intros Hw Hp Hs Hwf.
  destruct (@orchestrate_returns B chapters fetch max_workers order
              Hw Hp Hs Hwf) as [out [Hout Hperm]].
  exists out. split; [exact Hout|]. split.
  { rewrite (Permutation_length Hperm), length_map. apply length_seq. }
  split; [exact Hperm|]. intros i ch Hi. split.
  - cbn. now rewrite (nth_error_nth _ _ no_chapter Hi).
  - assert (i < List.length chapters) as Hlt
        by (apply nth_error_Some; congruence).
    cbn. destruct (task_content_cases B fetch i (Hs i Hlt))
      as [H|[[_ H]|H]]; auto.
Qed.

Lemma C2_one_record_per_chapter_witness :
  exists out,
    orchestrate ascii_builtins 4 repeated_titles text_stub [2; 0; 1] = Ok out
    /\ List.length out = 3.
Proof.
  destruct (@C2_one_record_per_chapter ascii_builtins repeated_titles
              text_stub 4 [2; 0; 1]) as [out [Hout [Hlen _]]].
  - lia.
  - unfold completion_order. cbn.
    eapply perm_trans; [apply perm_swap|apply perm_skip, perm_swap].
  - intros i _. exact I.
  - repeat constructor.
  - exists out. split; [exact Hout|exact Hlen].
Defined.

(** C3. With the chapter list [Prologue, Chapter 1, Prologue] and a
    fetcher failing for the chapter of index 1 only, the placeholder of
    chapter 2 is the third element of the result and the second element
    is the text of the third chapter. *)
Theorem C3_repeated_titles_placeholder_moved :
  orchestrate ascii_builtins 4 repeated_titles (failing_stub 1) [0; 1; 2]
  = Ok [result_of "Prologue" "text-0"; result_of "Prologue" "text-2";
        result_of "Chapter 1" "【章节 2 下载失败】"].
Proof. reflexivity. Qed.

(** C6. With the chapter list [Prologue, Chapter 1, Prologue] and the
    same fetcher, two runs whose tasks complete in different orders
    return different sequences. *)
Theorem C6_repeated_titles_runs_differ :
  orchestrate ascii_builtins 4 repeated_titles text_stub [0; 1; 2]
  = Ok [result_of "Prologue" "text-0"; result_of "Prologue" "text-2";
        result_of "Chapter 1" "text-1"]
  /\ orchestrate ascii_builtins 4 repeated_titles text_stub [2; 1; 0]
     = Ok [result_of "Prologue" "text-2"; result_of "Prologue" "text-0";
           result_of "Chapter 1" "text-1"]
  /\ orchestrate ascii_builtins 4 repeated_titles text_stub [0; 1; 2]
     <> orchestrate ascii_builtins 4 repeated_titles text_stub [2; 1; 0].
Proof. repeat split; try reflexivity. vm_compute. discriminate. Qed.

(** ** The chapter loop of the EPUB builder *)

Lemma epub_chapters_all B (l : list chap_content) (i : nat) :
  Forall (fun r => cc_content r <> []) l ->
  epub_chapters B i l
  = map (fun p => chapter_page B (fst p) (snd p))
        (combine (seq i (List.length l)) l).
Proof.
  revert i. induction l as [|r t IH]; intros i Hne; [reflexivity|].
  inversion Hne as [|? ? Hr Ht]; subst. cbn.
  destruct (cc_content r) eqn:E; [contradiction|].
  now rewrite IH.
Qed.

(** C10. Every record the orchestrator returns has a non-empty content,
    so the chapter loop of [build_epub] skips none: it emits the page of
    every record, as many pages as there are chapters. *)
Theorem C10_no_chapter_skipped
        B (chapters : list chapter) fetch (max_workers : Z) order :
  (1 <= max_workers)%Z ->
  completion_order (List.length chapters) order ->
  (forall i, i < List.length chapters -> settled (fetch i)) ->
  wf_titles chapters ->
  exists out,
    orchestrate B max_workers chapters fetch order = Ok out
    /\ Forall (fun r => cc_content r <> []) out
    /\ epub_chapters B 0 out
       = map (fun p => chapter_page B (fst p) (snd p))
             (combine (seq 0 (List.length out)) out)
    /\ List.length (epub_chapters B 0 out) = List.length chapters.
Proof.
  intros Hw Hp Hs Hwf.
  destruct (@orchestrate_returns B chapters fetch max_workers order
              Hw Hp Hs Hwf) as [out [Hout Hperm]].
  assert (Forall (fun r => cc_content r <> []) out) as Hne.
  { apply Forall_forall. intros r Hr.
    apply (Permutation_in _ Hperm) in Hr.
    apply in_map_iff in Hr as [i [<- Hi]]. apply in_seq in Hi. cbn.
    apply task_content_nonempty, Hs. lia. }
  exists out. split; [exact Hout|]. split; [exact Hne|].
  split; [now apply epub_chapters_all|].
  rewrite (epub_chapters_all B 0 Hne), length_map, length_combine,
    length_seq, Nat.min_id.
  rewrite (Permutation_length Hperm), length_map. apply length_seq.
Qed.

Lemma C10_no_chapter_skipped_witness :
  exists out,
    orchestrate ascii_builtins 4 repeated_titles (failing_stub 1) [2; 0; 1]
    = Ok out
    /\ List.length (epub_chapters ascii_builtins 0 out) = 3.
Proof.
  destruct (@C10_no_chapter_skipped ascii_builtins repeated_titles
              (failing_stub 1) 4 [2; 0; 1]) as [out [Hout [_ [_ Hlen]]]].
  - lia.
  - unfold completion_order. cbn.
    eapply perm_trans; [apply perm_swap|apply perm_skip, perm_swap].
  - intros [|[|i]] _; exact I.
  - repeat constructor.
  - exists out. split; [exact Hout|exact Hlen].
Defined.

(** ** The chapter fetcher *)

Lemma lstrip_head (s : pystr) :
  match Str.lstrip s with
  | [] => True
  | c :: _ => Str.isspace c = false
  end.
Proof.
  induction s as [|c t IH]; cbn [Str.lstrip]; [exact I|].
  destruct (Str.isspace c) eqn:E; [exact IH|exact E].
Qed.

Lemma lstrip_snoc (s : pystr) (c : N) :
  Str.isspace c = false -> Str.lstrip (s ++ [c]) = Str.lstrip s ++ [c].
Proof.
  intros Hc. induction s as [|a t IH]; cbn [Str.lstrip app].
  - now rewrite Hc.
  - destruct (Str.isspace a); [exact IH|reflexivity].
Qed.

Lemma rstrip_cons (c : N) (t : pystr) :
  Str.isspace c = false -> Str.rstrip (c :: t) = c :: Str.rstrip t.
Proof.
  intros Hc. unfold Str.rstrip. cbn [rev].
  rewrite (@lstrip_snoc _ _ Hc), rev_app_distr. reflexivity.
Qed.

Lemma rstrip_last (s : pystr) (d : N) :
  Str.rstrip s <> [] -> Str.isspace (last (Str.rstrip s) d) = false.
Proof.
  unfold Str.rstrip. intros Hne.
  pose proof (lstrip_head (rev s)) as Hh.
  destruct (Str.lstrip (rev s)) as [|c t]; [now destruct Hne|].
  cbn [rev]. now rewrite last_last.
Qed.

(** [strip] leaves no white space at either end. *)
Lemma strip_trimmed (s : pystr) : trimmed (Str.strip s).
Proof.
  unfold trimmed, Str.strip.
  pose proof (lstrip_head s) as Hh.
  destruct (Str.lstrip s) as [|c t] eqn:E; [exact I|].
  rewrite (@rstrip_cons _ t Hh). split; [exact Hh|].
  rewrite <- (@rstrip_cons _ t Hh). apply rstrip_last.
  rewrite (@rstrip_cons _ t Hh). discriminate.
Qed.

(** The bare [except] leaves no way out of [download_chapter] but a
    return. *)
Lemma download_chapter_returns B (r : net_result) :
  exists c, download_chapter B r = Ok c.
Proof.
  unfold download_chapter. destruct (read_chapter B r); eauto.
Qed.



(** C8. For a response whose body is a dictionary with code 0 and a data
    dictionary holding a content string, [download_chapter] returns that
    string with every [</p>] replaced by a newline, then every [&quot;]
    by a double quote, then every [&amp;] by an ampersand, the
    [<p idx="N">] tags removed and the white space at both ends
    trimmed. *)
Theorem C8_download_chapter_cleans_content
        B (resp : response) kv d (raw : pystr) :
  json_body resp = inr (JObj kv) ->
  lookup (u "code") kv = Some (JInt 0) ->
  lookup (u "data") kv = Some (JObj d) ->
  lookup (u "content") d = Some (JStr raw) ->
  download_chapter B (inr resp)
  = Ok (Some
          (Str.strip
             (strip_pidx B
                (Str.replace (u "&amp;") (u "&")
                   (Str.replace (u "&quot;") [quote]
                      (Str.replace (u "</p>") nl raw))))))
  /\ forall c, download_chapter B (inr resp) = Ok (Some c) -> trimmed c.
Proof.
  intros Hb Hcode Hdata Hcontent.
  assert (download_chapter B (inr resp) = Ok (Some (clean_content B raw)))
    as Heq.
  { unfold download_chapter, read_chapter. cbn. unfold resp_json.
    rewrite Hb. cbn. rewrite Hcode. cbn. rewrite Hdata. cbn.
    rewrite Hcontent. reflexivity. }
  split; [exact Heq|].
  intros c Hc. rewrite Heq in Hc. inversion Hc; subst.
  apply strip_trimmed.
Qed.

Lemma C8_download_chapter_cleans_content_witness :
  download_chapter ascii_builtins
    (inr (chapter_response
            (u "<p idx=" ++ [quote] ++ u "0" ++ [quote]
               ++ u ">  &quot;Tom &amp; Jerry&quot;</p> ")))
  = Ok (Some ([quote] ++ u "Tom & Jerry" ++ [quote])).
Proof.
  destruct (@C8_download_chapter_cleans_content ascii_builtins
              (chapter_response
                 (u "<p idx=" ++ [quote] ++ u "0" ++ [quote]
                    ++ u ">  &quot;Tom &amp; Jerry&quot;</p> "))
              _ _ _ eq_refl eq_refl eq_refl eq_refl) as [Heq _].
  exact Heq.
Defined.

(** ** Fatal errors of the metadata stage *)


(** Without a record, [get_book_metadata] prints one diagnostic line and
    exits with status 1. *)
Lemma get_book_metadata_exits B W (book_id : pystr) (st : state) :
  cache_lookup book_id (book_info_cache st) = None ->
  (read_metadata B book_id (get_info W book_id) = Ok None
   \/ exists e, read_metadata B book_id (get_info W book_id) = Raise e) ->
  exists diag,
    get_book_metadata B W book_id st
    = (Exit 1,
       {| cfg := cfg st;
          book_info_cache := book_info_cache st;
          trace := trace st ++ [EvGetInfo book_id; EvPrint diag] |}).
Proof.
  intros Hc Hr. unfold get_book_metadata. rewrite Hc.
  unfold bind, get_config, try_except, emit, lift, print, sys_exit, emit.
  cbn. destruct Hr as [Hr|[e Hr]]; rewrite Hr; cbn;
    rewrite <- app_assoc; cbn; eauto.
Qed.



(** ** The worker pool and the thread count *)

(** C4. The code does not do what the claim says: with [--threads=0],
    on a book with metadata and three chapters, the thread count stays 0,
    the run performs the metadata and the directory request and then ends
    with the [ValueError] of the pool constructor, before any chapter is
    requested or anything written. The sibling path of the same flag is
    tolerant: with [--threads=x] the default of 4 is kept and the same
    run returns normally. *)
Theorem C4_threads_zero_crashes :
  fst (main ascii_builtins sample_world
         [u "run.py"; sample_book_id; u "--threads=0"] initial_state)
  = Raise (ValueError (u "max_workers must be greater than 0"))
  /\ default_threads
       (cfg (snd (main ascii_builtins sample_world
                    [u "run.py"; sample_book_id; u "--threads=0"]
                    initial_state))) = 0%Z
  /\ io_events
       (trace (snd (main ascii_builtins sample_world
                      [u "run.py"; sample_book_id; u "--threads=0"]
                      initial_state)))
     = [EvGetInfo sample_book_id; EvGetDirectory sample_book_id]
  /\ no_chapter_request
       (trace (snd (main ascii_builtins sample_world
                      [u "run.py"; sample_book_id; u "--threads=0"]
                      initial_state)))
  /\ fst (main ascii_builtins sample_world
            [u "run.py"; sample_book_id; u "--threads=x"] initial_state)
     = Ok tt
  /\ default_threads
       (cfg (snd (main ascii_builtins sample_world
                    [u "run.py"; sample_book_id; u "--threads=x"]
                    initial_state))) = 4%Z.
Proof.
  split; [vm_compute; reflexivity|]. split; [vm_compute; reflexivity|].
  split; [vm_compute; reflexivity|]. split.
  - intros item Hin. vm_compute in Hin.
    repeat (destruct Hin as [Hin|Hin]; [discriminate|]). exact Hin.
  - split; vm_compute; reflexivity.
Qed.

(** X26. A thread count of 0 or less is handed to the pool unchanged and
    the pool constructor raises [ValueError]: the orchestrator returns
    nothing, and in [download_novel] the block leaves the state as it
    found it, no chapter requested. *)
Theorem nonpositive_threads_raise
        B W (chapters : list chapter) fetch order (st : state) (threads : Z) :
  (threads <= 0)%Z ->
  orchestrate B threads chapters fetch order
  = Raise (ValueError (u "max_workers must be greater than 0"))
  /\ (default_threads (cfg st) = threads ->
      download_chapters B W chapters st
      = (Raise (ValueError (u "max_workers must be greater than 0")), st)).
Proof.
  intros Hle. split.
  - unfold orchestrate, thread_pool.
    destruct (Z.leb_spec threads 0) as [_|Hgt]; [reflexivity|lia].
  - intros Hcfg. unfold download_chapters, bind, get_config, lift, thread_pool.
    rewrite Hcfg.
    destruct (Z.leb_spec threads 0) as [_|Hgt]; [reflexivity|lia].
Qed.

Lemma nonpositive_threads_raise_witness :
  (-2 <= 0)%Z
  /\ orchestrate ascii_builtins (-2) repeated_titles text_stub [0; 1; 2]
     = Raise (ValueError (u "max_workers must be greater than 0")).
Proof.
  split; [lia|].
  apply (@nonpositive_threads_raise ascii_builtins offline_world
           repeated_titles text_stub [0; 1; 2] initial_state (-2)%Z).
  lia.
Defined.

(** ** The name of the output file *)

Lemma startswith_pair_sep (x y sep : N) (n a : pystr) :
  x <> sep -> y <> sep ->
  Str.startswith [x; y] (n ++ sep :: a) = Str.startswith [x; y] n.
Proof.
  intros Hx Hy. destruct n as [|c [|d n']]; cbn.
  - destruct (N.eqb_spec x sep); [contradiction|reflexivity].
  - destruct (N.eqb_spec y sep); [contradiction|].
    destruct (x =? c)%N; reflexivity.
  - reflexivity.
Qed.

(** A two-character pattern without the separator occurs in [n sep a]
    only inside [n] or inside [a]. *)
Lemma contains_pair_sep (x y sep : N) (n a : pystr) :
  x <> sep -> y <> sep ->
  Str.contains [x; y] (n ++ sep :: a)
  = Str.contains [x; y] n || Str.contains [x; y] a.
Proof.
  intros Hx Hy. induction n as [|c n' IH].
  - cbn [app Str.contains].
    replace (Str.startswith [x; y] (sep :: a)) with false.
    + reflexivity.
    + cbn. destruct (N.eqb_spec x sep); [contradiction|reflexivity].
  - change ((c :: n') ++ sep :: a) with (c :: (n' ++ sep :: a)).
    cbn [Str.contains]. rewrite IH.
    change (c :: (n' ++ sep :: a)) with ((c :: n') ++ sep :: a).
    rewrite (startswith_pair_sep (c :: n') a Hx Hy).
    now rewrite orb_assoc.
Qed.

(** C9 as stated fails: the metadata of the sample book gives the title
    三体 and no author; the title is known, and the book identifier is in
    the name all the same. *)
Lemma C9_identifier_with_known_title :
  exists m,
    fst (get_book_metadata ascii_builtins sample_world sample_book_id
           initial_state) = Ok m
    /\ book_name m = JStr (u "三体")
    /\ book_name m <> book_name (default_metadata sample_book_id)
    /\ output_name m sample_book_id
       = Ok (u "三体-未知作者_7143038691944959011").
Proof.
  eexists. split; [vm_compute; reflexivity|].
  split; [reflexivity|]. split; [vm_compute; discriminate|].
  vm_compute. reflexivity.
Qed.

(** C9, amended. The name is the sanitized title, a hyphen and the
    sanitized author; the book identifier is appended to it exactly when
    the sanitized title or the sanitized author contains 未知, which is
    the case as soon as one of the two is missing from the metadata. *)
Theorem C9_identifier_iff_unknown_marker
        (m : metadata) (book_id n a : pystr) :
  sanitize_filename (book_name m) = Ok n ->
  sanitize_filename (author m) = Ok a ->
  output_name m book_id
  = Ok (if Str.contains (u "未知") n || Str.contains (u "未知") a
        then n ++ u "-" ++ a ++ u "_" ++ book_id
        else n ++ u "-" ++ a).
Proof.
  intros Hn Ha. unfold output_name. rewrite Hn, Ha. cbn [obind].
  change (u "未知") with [26410%N; 30693%N].
  change (u "-") with [45%N]. cbn [app].
  rewrite contains_pair_sep by discriminate.
  destruct (Str.contains _ n || Str.contains _ a);
    [|reflexivity].
  now rewrite <- app_assoc.
Qed.

Lemma C9_identifier_iff_unknown_marker_witness :
  output_name
    {| book_name := JStr (u "三体"); author := JStr (u "刘慈欣");
       summary := JStr []; cover_url := JStr []; category := JStr [];
       status := JStr []; word_count := JStr []; readers := JStr [] |}
    sample_book_id
  = Ok (u "三体-刘慈欣").
Proof.
  apply (@C9_identifier_iff_unknown_marker
           {| book_name := JStr (u "三体"); author := JStr (u "刘慈欣");
              summary := JStr []; cover_url := JStr []; category := JStr [];
              status := JStr []; word_count := JStr []; readers := JStr [] |}
           sample_book_id (u "三体") (u "刘慈欣")); reflexivity.
Defined.

(** ** File names and book identifiers *)

Lemma lstrip_incl (s : pystr) (c : N) : In c (Str.lstrip s) -> In c s.
Proof.
  induction s as [|a t IH]; cbn [Str.lstrip]; [easy|].
  destruct (Str.isspace a); [|easy]. intros H. right. now apply IH.
Qed.

Lemma strip_incl (s : pystr) (c : N) : In c (Str.strip s) -> In c s.
Proof.
  unfold Str.strip, Str.rstrip. intros H.
  apply in_rev, lstrip_incl in H. apply in_rev in H.
  now apply lstrip_incl.
Qed.

Lemma firstn_incl {A} (n : nat) (l : list A) (x : A) :
  In x (firstn n l) -> In x l.
Proof.
  intros H. rewrite <- (firstn_skipn n l). apply in_or_app. now left.
Qed.

(** X1. A sanitized name has at most 100 characters, all taken from the
    given name, and none of them a backslash, slash, star, question mark,
    colon, double quote, angle bracket or bar; anything but a string is
    refused with [TypeError]. *)
Theorem sanitize_filename_safe (name : json) :
  match name with
  | JStr s =>
      exists r, sanitize_filename name = Ok r
                /\ List.length r <= 100
                /\ Forall (fun c => forbidden_in_filename c = false) r
                /\ forall c, In c r -> In c s
  | _ => sanitize_filename name = Raise (TypeError name)
  end.
Proof.
  destruct name as [| b | z | s | l | kv]; try reflexivity.
  eexists. split; [reflexivity|]. split; [apply firstn_le_length|].
  assert (forall c,
             In c (firstn 100
                     (Str.strip
                        (filter (fun c => negb (forbidden_in_filename c)) s)))
             -> In c s /\ forbidden_in_filename c = false) as Hin.
  { intros c Hc. apply firstn_incl, strip_incl, filter_In in Hc.
    destruct Hc as [Hs Hf]. split; [exact Hs|].
    now apply negb_true_iff in Hf. }
  split.
  - apply Forall_forall. intros c Hc. now apply Hin.
  - intros c Hc. now apply Hin.
Qed.

Section BookId.

Variable B : Builtins.

Lemma digit_run_le (s : pystr) : digit_run B s <= List.length s.
Proof.
  induction s as [|c t IH]; cbn; [lia|].
  destruct (is_decimal B c); cbn; lia.
Qed.

Lemma digit_run_decimal (s : pystr) (k : nat) :
  k <= digit_run B s -> Forall (fun c => is_decimal B c = true) (firstn k s).
Proof.
  revert k. induction s as [|c t IH]; intros k Hk.
  - rewrite firstn_nil. constructor.
  - destruct k as [|k]; [constructor|]. cbn in Hk |- *.
    destruct (is_decimal B c) eqn:E; [|lia].
    constructor; [exact E|]. apply IH. lia.
Qed.

Lemma digit_run_app (d rest : pystr) :
  Forall (fun c => is_decimal B c = true) d ->
  List.length d <= digit_run B (d ++ rest).
Proof.
  induction d as [|c t IH]; intros Hd; cbn; [lia|].
  inversion Hd as [|? ? Hc Ht]; subst. rewrite Hc.
  specialize (IH Ht). lia.
Qed.

Lemma search_digits_found (s id : pystr) :
  search_digits B s = Some id ->
  10 <= List.length id <= 20
  /\ Forall (fun c => is_decimal B c = true) id
  /\ exists pre post, s = pre ++ id ++ post.
Proof.
  induction s as [|c t IH]; intros Hs; [discriminate|].
  cbn [search_digits] in Hs.
  pose proof (digit_run_le (c :: t)) as Hle.
  remember (digit_run B (c :: t)) as d eqn:Ed.
  remember (c :: t) as s eqn:Es.
  destruct (Nat.leb_spec 10 d) as [Hd|Hd].
  - inversion Hs; subst id. clear Hs.
    split; [rewrite length_firstn; lia|]. split.
    + apply digit_run_decimal. rewrite <- Ed. lia.
    + exists [], (skipn (Nat.min d 20) s).
      cbn [app]. now rewrite firstn_skipn.
  - subst s. destruct (IH Hs) as [Hlen [Hdec [pre [post ->]]]].
    split; [exact Hlen|]. split; [exact Hdec|].
    now exists (c :: pre), post.
Qed.

Lemma search_digits_none (s : pystr) :
  search_digits B s = None ->
  forall pre d post,
    s = pre ++ d ++ post ->
    Forall (fun c => is_decimal B c = true) d ->
    List.length d < 10.
Proof.
  induction s as [|c t IH]; intros Hs pre d post Heq Hd.
  - destruct pre; [|discriminate].
    destruct d; [cbn; lia|discriminate].
  - cbn [search_digits] in Hs.
    destruct (Nat.leb_spec 10 (digit_run B (c :: t))) as [Hrun|Hrun];
      [discriminate|].
    destruct pre as [|p pre'].
    + cbn [app] in Heq. rewrite Heq in Hrun.
      pose proof (digit_run_app post Hd). lia.
    + inversion Heq; subst. now apply (IH Hs pre' d post).
Qed.

(** X2. A book identifier extracted from the argument is a run of 10 to
    20 decimal digits found in it; and nothing is extracted only when the
    argument holds no run of 10 digits. *)
Theorem extract_book_id_from_url_digits (url : pystr) :
  match extract_book_id_from_url B url with
  | Some id =>
      10 <= List.length id <= 20
      /\ Forall (fun c => is_decimal B c = true) id
      /\ exists pre post, Str.strip url = pre ++ id ++ post
  | None =>
      forall pre d post,
        Str.strip url = pre ++ d ++ post ->
        Forall (fun c => is_decimal B c = true) d ->
        List.length d < 10
  end.
Proof.
  unfold extract_book_id_from_url.
  destruct (search_digits B (Str.strip url)) as [id|] eqn:E.
  - now apply search_digits_found.
  - now apply search_digits_none.
Qed.

End BookId.

(** ** Exceptions stay inside the clients *)

Create HintDb settled.

Lemma obind_settled {A C} (m : outcome A) (k : A -> outcome C) :
  settled m -> (forall a, settled (k a)) -> settled (obind m k).
Proof. destruct m; cbn; auto. Qed.

Lemma received_settled r : settled (received r).
Proof. now destruct r. Qed.

Lemma raise_for_status_settled resp : settled (raise_for_status resp).
Proof. unfold raise_for_status. now destruct (_ && _). Qed.

Lemma resp_json_settled resp : settled (resp_json resp).
Proof. unfold resp_json. now destruct (json_body resp). Qed.

Lemma py_get_settled v k d : settled (py_get v k d).
Proof. now destruct v. Qed.

Lemma py_item_settled v k : settled (py_item v k).
Proof. destruct v; cbn; auto. now destruct (lookup k kv). Qed.

Lemma py_item0_settled v : settled (py_item0 v).
Proof. destruct v as [| | | [|]|[|]|]; cbn; auto. Qed.

Lemma py_in_settled k v : settled (py_in k v).
Proof. now destruct v. Qed.

Lemma py_iter_settled v : settled (py_iter v).
Proof. now destruct v. Qed.

Lemma as_str_settled attr v : settled (as_str attr v).
Proof. now destruct v. Qed.

Lemma format_word_count_settled B v : settled (format_word_count B v).
Proof.
  destruct v; cbn; auto; now destruct (wan_str B _).
Qed.

#[local] Hint Resolve received_settled raise_for_status_settled
  resp_json_settled py_get_settled py_item_settled py_item0_settled
  py_in_settled py_iter_settled as_str_settled format_word_count_settled
  : settled.

Ltac settle :=
  repeat first
    [ exact I
    | solve [auto with settled]
    | apply obind_settled; [|intros ?]
    | match goal with
      | |- settled (if ?b then _ else _) => destruct b
      end ].

Lemma unbracket_settled name : settled (unbracket name).
Proof. unfold unbracket. settle. Qed.

Lemma read_book_data_settled B book_id data :
  settled (read_book_data B book_id data).
Proof.
  unfold read_book_data. pose proof unbracket_settled. settle.
Qed.

Lemma read_metadata_settled B book_id r :
  settled (read_metadata B book_id r).
Proof.
  unfold read_metadata. pose proof (read_book_data_settled B). settle.
Qed.

Lemma read_volume_settled items : settled (read_volume items).
Proof.
  induction items as [|c rest IH]; cbn [read_volume]; settle.
Qed.

Lemma read_volumes_settled volumes : settled (read_volumes volumes).
Proof.
  pose proof read_volume_settled.
  induction volumes as [|v rest IH]; cbn [read_volumes]; settle.
Qed.

Lemma read_chapter_list_settled r : settled (read_chapter_list r).
Proof.
  unfold read_chapter_list. pose proof read_volumes_settled. settle.
Qed.

(** X3. [get_book_metadata] lets no exception out: it returns the
    metadata or ends the process with status 1. *)
Theorem get_book_metadata_returns_or_exits B W (book_id : pystr) (st : state) :
  match fst (get_book_metadata B W book_id st) with
  | Ok _ => True
  | Raise _ => False
  | Exit code => code = 1%Z
  end.
Proof.
  unfold get_book_metadata.
  destruct (cache_lookup book_id (book_info_cache st)); [exact I|].
  unfold bind, get_config, try_except, emit, lift, print, sys_exit. cbn.
  pose proof (read_metadata_settled B book_id (get_info W book_id)) as Hs.
  destruct (read_metadata B book_id (get_info W book_id)) as [[m|]|e|c];
    cbn in *; easy.
Qed.

(** X4. [get_chapter_list] lets no exception out either: it returns the
    chapters or ends the process with status 1. *)
Theorem get_chapter_list_returns_or_exits B W (book_id : pystr) (st : state) :
  match fst (get_chapter_list B W book_id st) with
  | Ok _ => True
  | Raise _ => False
  | Exit code => code = 1%Z
  end.
Proof.
  unfold get_chapter_list.
  unfold bind, get_config, try_except, emit, lift, print, sys_exit. cbn.
  pose proof (read_chapter_list_settled (get_directory W book_id)) as Hs.
  destruct (read_chapter_list (get_directory W book_id)) as [[chs|]|e|c];
    cbn in *; easy.
Qed.

(** ** The metadata record *)

Ltac obind_inv H :=
  repeat match type of H with
    | obind ?m _ = Ok _ =>
        let E := fresh "E" in
        destruct m eqn:E; cbn [obind] in H; try discriminate H
    | (if ?b then _ else _) = Ok _ =>
        let E := fresh "E" in
        destruct b eqn:E; try discriminate H
    end.

Lemma unbracket_string (name name' : json) :
  unbracket name = Ok name' -> exists s, name' = JStr s.
Proof.
  unfold unbracket. intros H. obind_inv H.
  - inversion H. eauto.
  - inversion H; subst name'. destruct name; try discriminate. eauto.
Qed.

Lemma read_book_data_fields B (book_id : pystr) (data : json) (m : metadata) :
  read_book_data B book_id data = Ok m ->
  (exists s, book_name m = JStr s)
  /\ (status m = JStr (u "连载中") \/ status m = JStr (u "已完结")).
Proof.
  unfold read_book_data. intros H. obind_inv H; inversion H; subst; cbn.
  all: split;
    [ eapply unbracket_string; eassumption
    | match goal with
      | |- context [if ?b then _ else _] => destruct b; auto
      end ].
Qed.

(** X5. The metadata fetched for a book has a string for title, and for
    status 连载中 or 已完结: the default 未知状态 never survives a
    successful request. *)
Theorem get_book_metadata_fields B W (book_id : pystr) (st : state) m :
  cache_lookup book_id (book_info_cache st) = None ->
  fst (get_book_metadata B W book_id st) = Ok m ->
  (exists s, book_name m = JStr s)
  /\ (status m = JStr (u "连载中") \/ status m = JStr (u "已完结")).
Proof.
  intros Hc. unfold get_book_metadata. rewrite Hc.
  unfold bind, get_config, try_except, emit, lift, print, sys_exit. cbn.
  destruct (read_metadata B book_id (get_info W book_id)) as [[m0|]|e|c]
    eqn:Hr; cbn; try discriminate.
  intros Hm. inversion Hm; subst m0. clear Hm.
  unfold read_metadata in Hr. obind_inv Hr. inversion Hr; subst.
  eapply read_book_data_fields; eassumption.
Qed.

Lemma get_book_metadata_fields_witness :
  exists m,
    fst (get_book_metadata ascii_builtins sample_world sample_book_id
           initial_state) = Ok m
    /\ book_name m = JStr (u "三体")
    /\ (status m = JStr (u "连载中") \/ status m = JStr (u "已完结")).
Proof.
  eexists. split; [vm_compute; reflexivity|]. split; [reflexivity|].
  apply (@get_book_metadata_fields ascii_builtins sample_world
           sample_book_id initial_state _ eq_refl eq_refl).
Defined.

(** X6. Once fetched, the metadata of a book is served from the cache:
    a second call returns the same record, performs no request and
    leaves the state as it is. *)
Theorem get_book_metadata_cached B W (book_id : pystr) (st st' : state) m :
  get_book_metadata B W book_id st = (Ok m, st') ->
  get_book_metadata B W book_id st' = (Ok m, st').
Proof.
  unfold get_book_metadata at 1.
  destruct (cache_lookup book_id (book_info_cache st)) as [m0|] eqn:Hc.
  - intros H. inversion H; subst. unfold get_book_metadata. now rewrite Hc.
  - unfold bind, get_config, try_except, emit, lift, print, sys_exit.
    cbn.
    destruct (read_metadata B book_id (get_info W book_id)) as [[m0|]|e|c];
      cbn; try discriminate.
    intros H. inversion H; subst. unfold get_book_metadata. cbn.
    now rewrite pystr_eqb_refl.
Qed.

Lemma get_book_metadata_cached_witness :
  exists m st',
    get_book_metadata ascii_builtins sample_world sample_book_id initial_state
    = (Ok m, st')
    /\ get_book_metadata ascii_builtins sample_world sample_book_id st'
       = (Ok m, st').
Proof.
  eexists. eexists. split; [vm_compute; reflexivity|].
  apply (@get_book_metadata_cached ascii_builtins sample_world
           sample_book_id initial_state). vm_compute. reflexivity.
Defined.

(** X7. A word count given as a non-empty string cannot be divided by
    10000: the [TypeError] is caught as any failure of the metadata stage
    and the process exits with status 1. *)
Theorem get_book_metadata_word_count_string
        B W (book_id : pystr) (st : state) resp kv bd rest (c : N) (s : pystr) :
  cache_lookup book_id (book_info_cache st) = None ->
  get_info W book_id = inr resp ->
  (status_code resp < 400)%Z ->
  json_body resp = inr (JObj kv) ->
  lookup (u "code") kv = Some (JInt 0) ->
  lookup (u "data") kv = Some (JArr (JObj bd :: rest)) ->
  lookup (u "word_count") bd = Some (JStr (c :: s)) ->
  read_metadata B book_id (get_info W book_id)
  = Raise (TypeError (JStr (c :: s)))
  /\ fst (get_book_metadata B W book_id st) = Exit 1.
Proof.
  intros Hc Hi Hst Hb Hcode Hdata Hwc.
  assert (read_metadata B book_id (get_info W book_id)
          = Raise (TypeError (JStr (c :: s)))) as Hr.
  { rewrite Hi. unfold read_metadata, raise_for_status, resp_json. cbn.
    destruct (Z.leb_spec 400 (status_code resp)); [lia|]. cbn.
    rewrite Hb. cbn. rewrite Hcode. cbn. rewrite Hdata. cbn.
    unfold read_book_data. cbn. rewrite Hdata. cbn. rewrite Hwc. cbn.
    destruct (truthy _); reflexivity. }
  split; [exact Hr|].
  destruct (@get_book_metadata_exits B W book_id st Hc
              (or_intror (ex_intro _ _ Hr))) as [diag Hg].
  now rewrite Hg.
Qed.

Lemma get_book_metadata_word_count_string_witness :
  fst (get_book_metadata ascii_builtins string_count_world sample_book_id
         initial_state) = Exit 1.
Proof.
  refine (proj2 (@get_book_metadata_word_count_string ascii_builtins
                   string_count_world sample_book_id initial_state
                   _ _ _ _ _ _
                   eq_refl eq_refl _ eq_refl eq_refl eq_refl eq_refl)).
  cbn. lia.
Defined.

Lemma endswith_snoc (b : N) (s : pystr) : Str.endswith [b] (s ++ [b]) = true.
Proof.
  unfold Str.endswith. rewrite rev_app_distr. cbn.
  now rewrite N.eqb_refl.
Qed.

(** X8. A title enclosed in 《 》 is stored without them. *)
Theorem unbracket_removes_brackets (s : pystr) :
  unbracket (JStr (u "《" ++ s ++ u "》")) = Ok (JStr s).
Proof.
  unfold unbracket. cbn [as_str obind].
  change (u "《") with [12298%N]. change (u "》") with [12299%N].
  cbn [app Str.startswith]. rewrite N.eqb_refl. cbn [andb].
  change (12298%N :: s ++ [12299%N]) with ((12298%N :: s) ++ [12299%N]).
  rewrite endswith_snoc. unfold Str.slice_1_m1.
  cbn [app tl]. now rewrite removelast_last.
Qed.

(** ** The chapter list *)

Lemma read_volume_objects (chs : list (list (pystr * json))) :
  Forall has_item_id chs ->
  read_volume (map JObj chs) = Ok (map chapter_of_items chs).
Proof.
  induction chs as [|kv rest IH]; intros Hf; [reflexivity|].
  inversion Hf as [|? ? Hkv Hrest]; subst.
  cbn [map read_volume py_get py_item obind]. unfold has_item_id in Hkv.
  unfold chapter_of_items at 1.
  destruct (lookup (u "itemId") kv) as [i|]; [|contradiction].
  cbn [obind]. now rewrite (IH Hrest).
Qed.

Lemma read_volumes_arrays (vols : list (list (list (pystr * json)))) :
  Forall (Forall has_item_id) vols ->
  read_volumes (map (fun v => JArr (map JObj v)) vols)
  = Ok (List.concat (map (map chapter_of_items) vols)).
Proof.
  induction vols as [|v rest IH]; intros Hf; [reflexivity|].
  inversion Hf as [|? ? Hv Hrest]; subst.
  cbn [map read_volumes py_iter obind].
  rewrite (read_volume_objects Hv). cbn [obind].
  now rewrite (IH Hrest).
Qed.

(** X9. When the directory answers with code 0 and volumes of chapter
    objects that all have an [itemId], [get_chapter_list] performs the one
    request and returns the chapters volume after volume in the order
    given, a chapter without title getting the empty title. *)
Theorem get_chapter_list_volumes
        B W (book_id : pystr) (st : state) resp kv d vols :
  get_directory W book_id = inr resp ->
  json_body resp = inr (JObj kv) ->
  lookup (u "code") kv = Some (JInt 0) ->
  lookup (u "data") kv = Some (JObj d) ->
  lookup (u "chapterListWithVolume") d
  = Some (JArr (map (fun v => JArr (map JObj v)) vols)) ->
  Forall (Forall has_item_id) vols ->
  get_chapter_list B W book_id st
  = (Ok (List.concat (map (map chapter_of_items) vols)),
     after (emit (EvGetDirectory book_id)) st).
Proof.
  intros Hd Hb Hcode Hdata Hvols Hitems.
  assert (read_chapter_list (get_directory W book_id)
          = Ok (Some (List.concat (map (map chapter_of_items) vols)))) as Hr.
  { rewrite Hd. unfold read_chapter_list, resp_json. cbn. rewrite Hb. cbn.
    rewrite Hcode. cbn. rewrite Hdata. cbn. rewrite Hvols. cbn.
    now rewrite (read_volumes_arrays Hitems). }
  unfold get_chapter_list, bind, get_config, try_except, emit, lift, after.
  cbn. now rewrite Hr.
Qed.

Lemma get_chapter_list_volumes_witness :
  fst (get_chapter_list ascii_builtins sample_world sample_book_id
         initial_state)
  = Ok [chapter_of "One" "7001"; chapter_of "Two" "7002";
        chapter_of "Three" "7003"].
Proof.
  rewrite (@get_chapter_list_volumes ascii_builtins sample_world
             sample_book_id initial_state _ _ _
             [[[(u "title", JStr (u "One")); (u "itemId", JStr (u "7001"))];
               [(u "title", JStr (u "Two")); (u "itemId", JStr (u "7002"))];
               [(u "title", JStr (u "Three")); (u "itemId", JStr (u "7003"))]]]
             eq_refl eq_refl eq_refl eq_refl eq_refl).
  - reflexivity.
  - repeat constructor; discriminate.
Defined.

(** X10. When the chapter list comes back empty, [download_novel] prints
    that no chapter was found and returns: after the metadata and the
    directory requests nothing is requested and nothing is written. *)
Theorem download_novel_without_chapters
        B W (book_id : pystr) (st : state) (m : metadata) :
  cache_lookup book_id (book_info_cache st) = None ->
  read_metadata B book_id (get_info W book_id) = Ok (Some m) ->
  read_chapter_list (get_directory W book_id) = Ok (Some []) ->
  exists st',
    download_novel B W book_id st = (Ok tt, st')
    /\ trace st'
       = trace st
           ++ [EvPrint (nl ++ Colors.wrap (cfg st) (u "===== Text信息 =====")
                          Colors.BLUE);
               EvGetInfo book_id;
               EvPrint (u "书名：" ++ Colors.wrap (cfg st)
                          (py_str B (book_name m)) Colors.PURPLE);
               EvPrint (u "作者：" ++ py_str B (author m));
               EvPrint (u "类型：" ++ py_str B (category m) ++ u " | 状态："
                          ++ py_str B (status m));
               EvGetDirectory book_id;
               EvPrint (Colors.wrap (cfg st) (u "未找到章节列表") Colors.RED)].
Proof.
  intros Hc Hm Hl. eexists. unfold download_novel.
  unfold get_book_metadata, get_chapter_list, bind, get_config, try_except,
    emit, lift, print, emit, cache_store, ret.
  cbn. rewrite Hc. cbn. rewrite Hm. cbn. rewrite Hl. cbn.
  split; [reflexivity|]. cbn.
  repeat (rewrite <- app_assoc; cbn [app]). reflexivity.
Qed.

Lemma download_novel_without_chapters_witness :
  exists st',
    download_novel ascii_builtins empty_book_world sample_book_id
      initial_state = (Ok tt, st')
    /\ List.length (trace st') = 7.
Proof.
  destruct (@download_novel_without_chapters ascii_builtins empty_book_world
              sample_book_id initial_state _ eq_refl eq_refl eq_refl)
    as [st' [Hrun Htrace]].
  exists st'. split; [exact Hrun|]. now rewrite Htrace.
Defined.

(** ** The command line *)

(** X11. Without a second argument, or with one holding no run of ten
    digits, [main] prints one line and exits with status 1: nothing is
    requested and the configuration is left alone. *)
Theorem main_needs_book_id B W (argv : list pystr) (st : state) :
  (List.length argv < 2
   \/ exists prog url args,
       argv = prog :: url :: args
       /\ extract_book_id_from_url B url = None) ->
  exists line,
    main B W argv st
    = (Exit 1,
       {| cfg := cfg st;
          book_info_cache := book_info_cache st;
          trace := trace st ++ [EvPrint line] |}).
Proof.
  intros [Hlen|[prog [url [args [-> Hnone]]]]].
  - destruct argv as [|a [|b rest]]; cbn in Hlen; try lia;
      eexists; reflexivity.
  - unfold main. rewrite Hnone. eexists. reflexivity.
Qed.

Lemma main_needs_book_id_witness :
  exists line,
    fst (main ascii_builtins sample_world [u "run.py"; u "book 12345"]
           initial_state) = Exit 1
    /\ trace (snd (main ascii_builtins sample_world
                     [u "run.py"; u "book 12345"] initial_state))
       = [EvPrint line].
Proof.
  destruct (@main_needs_book_id ascii_builtins sample_world
              [u "run.py"; u "book 12345"] initial_state) as [line Hrun].
  - right. exists (u "run.py"), (u "book 12345"), []. split; reflexivity.
  - exists line. rewrite Hrun. split; reflexivity.
Defined.

(** ** The orchestrator, continued *)

Lemma map_nth_seq {A C} (f : A -> C) (l : list A) (d : A) :
  map (fun i => f (nth i l d)) (seq 0 (List.length l)) = map f l.
Proof.
  apply (nth_ext _ _ (f d) (f d)).
  - now rewrite !length_map, length_seq.
  - intros n Hn. rewrite length_map, length_seq in Hn.
    rewrite (map_nth f l d n).
    rewrite (nth_indep _ (f d) (f (nth (List.length l) l d)))
      by now rewrite length_map, length_seq.
    rewrite (map_nth (fun i => f (nth i l d)) (seq 0 (List.length l))
               (List.length l) n).
    now rewrite seq_nth.
Qed.

Lemma three_chapters_distinct : distinct_titles three_chapters.
Proof.
  intros i j ci cj Hi Hj Heq.
  destruct i as [|[|[|i]]]; destruct j as [|[|[|j]]];
    cbn in Hi, Hj; try reflexivity;
    try (destruct i; discriminate Hi); try (destruct j; discriminate Hj);
    inversion Hi; inversion Hj; subst; vm_compute in Heq; discriminate Heq.
Qed.

(** X12. When no two chapters have equal titles, the orchestrator returns
    the records in chapter order whatever the completion order: the i-th
    record carries the title and the content of the i-th chapter. *)
Theorem distinct_titles_restore_order
        B (chapters : list chapter) fetch (max_workers : Z) order :
  (1 <= max_workers)%Z ->
  completion_order (List.length chapters) order ->
  (forall i, i < List.length chapters -> settled (fetch i)) ->
  wf_titles chapters ->
  distinct_titles chapters ->
  exists out,
    orchestrate B max_workers chapters fetch order = Ok out
    /\ out = map (record_of B chapters fetch) (seq 0 (List.length chapters))
    /\ map cc_title out = map title chapters.
Proof.
  intros Hw Hp Hs Hwf Hd. eexists. split; [|split; [reflexivity|]].
  - now apply orchestrate_distinct.
  - rewrite map_map. cbn [record_of cc_title]. apply map_nth_seq.
Qed.

Lemma distinct_titles_restore_order_witness :
  orchestrate ascii_builtins 2 three_chapters (failing_stub 1) [2; 0; 1]
  = Ok [result_of "One" "text-0"; result_of "Two" "【章节 2 下载失败】";
        result_of "Three" "text-2"].
Proof.
  destruct (@distinct_titles_restore_order ascii_builtins three_chapters
              (failing_stub 1) 2 [2; 0; 1]) as [out [Hout [Heq _]]].
  - lia.
  - unfold completion_order. cbn.
    eapply perm_trans; [apply perm_swap|apply perm_skip, perm_swap].
  - intros [|[|i]] _; exact I.
  - repeat constructor.
  - exact three_chapters_distinct.
  - rewrite Hout, Heq. reflexivity.
Defined.

Lemma decorate_keys (chapters : list chapter) (l : list chap_content) d :
  decorate chapters l = Ok d ->
  map snd d = l
  /\ Forall (fun p => sort_key chapters (snd p) = Ok (fst p)) d.
Proof.
  revert d. induction l as [|x t IH]; intros d H; cbn [decorate] in H.
  - inversion H; subst. split; [reflexivity|constructor].
  - obind_inv H. inversion H; subst. clear H.
    destruct (IH _ eq_refl) as [Hsnd Hall].
    split; [cbn; now rewrite Hsnd|]. constructor; [assumption|exact Hall].
Qed.

(** X13. Whatever the titles, the records come out ordered by their sort
    key, the index of the first chapter with an equal title; the result is
    a rearrangement of the records in completion order. *)
Theorem results_sorted_by_first_title
        B (chapters : list chapter) fetch (max_workers : Z) order out :
  orchestrate B max_workers chapters fetch order = Ok out ->
  exists collected keys,
    collect B chapters fetch order = Ok collected
    /\ Permutation out collected
    /\ Forall2 (fun r k => sort_key chapters r = Ok k) out keys
    /\ StronglySorted le keys.
Proof.
  unfold orchestrate, sort_by_title. intros H. obind_inv H.
  inversion H; subst. clear H.
  match goal with
  | Hd : decorate _ _ = Ok ?d |- _ =>
      destruct (decorate_keys _ _ Hd) as [Hsnd Hkeys];
      exists (map snd d), (map fst (sort_keyed d))
  end.
  rewrite Hsnd. split; [reflexivity|]. split.
  { rewrite <- Hsnd. apply Permutation_map, sort_keyed_perm. }
  match goal with
  | Hd : decorate _ _ = Ok ?d |- _ =>
      assert (Forall (fun p => sort_key chapters (snd p) = Ok (fst p))
                (sort_keyed d)) as Hs
        by (apply Forall_forall; intros p Hp;
            rewrite Forall_forall in Hkeys; apply Hkeys;
            apply (Permutation_in _ (sort_keyed_perm d)); exact Hp);
      pose proof (sort_keyed_sorted d) as Hsorted;
      induction (sort_keyed d) as [|p s IHs]
  end.
  - split; constructor.
  - inversion Hs; subst. apply StronglySorted_inv in Hsorted as [Hs' Hp].
    destruct (IHs H2 Hs') as [Hf Hss]. split.
    + cbn. constructor; assumption.
    + cbn. constructor; [exact Hss|].
      apply Forall_forall. intros k Hk. apply in_map_iff in Hk as [q [<- Hq]].
      rewrite Forall_forall in Hp. exact (Hp q Hq).
Qed.

Lemma results_sorted_by_first_title_witness :
  exists keys,
    Forall2 (fun r k => sort_key repeated_titles r = Ok k)
      [result_of "Prologue" "text-2"; result_of "Prologue" "text-0";
       result_of "Chapter 1" "text-1"] keys
    /\ StronglySorted le keys.
Proof.
  destruct (@results_sorted_by_first_title ascii_builtins repeated_titles
              text_stub 4 [2; 1; 0] _ eq_refl)
    as [collected [keys [_ [_ [Hkeys Hsorted]]]]].
  exists keys. split; assumption.
Defined.

(** ** The requests of the worker pool *)

Lemma emit_posts_run (chapters : list chapter) (order : list nat) (st : state) :
  Forall (fun i => i < List.length chapters) order ->
  emit_posts chapters order st
  = (Ok tt,
     {| cfg := cfg st;
        book_info_cache := book_info_cache st;
        trace := trace st ++ map (post_event chapters) order |}).
Proof.
  revert st. induction order as [|i rest IH]; intros st Hr.
  - cbn. rewrite app_nil_r. now destruct st.
  - inversion Hr as [|? ? Hi Hrest]; subst. cbn [emit_posts map].
    unfold bind at 1.
    rewrite (nth_error_nth' chapters no_chapter Hi). unfold emit at 1.
    rewrite (IH _ Hrest). cbn. unfold post_event at 2.
    now rewrite <- app_assoc.
Qed.

Lemma fetch_task_settled B W (chapters : list chapter) (i : nat) :
  settled (fetch_task B W chapters i).
Proof.
  unfold fetch_task. destruct (nth_error chapters i) as [ch|]; [|exact I].
  destruct (download_chapter_returns B (post_down W i (item_id ch)))
    as [c Hc].
  now rewrite Hc.
Qed.

(** The pool block of [download_novel], run with a valid thread count:
    its result is that of the orchestrator on the tasks of the run. *)
Lemma download_chapters_run
        B W (chapters : list chapter) (st : state) :
  (1 <= default_threads (cfg st))%Z ->
  dispatch_order (List.length chapters) (dispatch W) ->
  completion_order (List.length chapters) (completion W) ->
  wf_titles chapters ->
  exists out,
    orchestrate B (default_threads (cfg st)) chapters
      (fetch_task B W chapters) (completion W) = Ok out
    /\ download_chapters B W chapters st
       = (Ok out,
          {| cfg := cfg st;
             book_info_cache := book_info_cache st;
             trace := trace st ++ map (post_event chapters) (dispatch W) |})
    /\ Permutation (map (post_event chapters) (dispatch W))
         (map (fun c => EvPostDown (item_id c)) chapters)
    /\ Permutation out
         (map (record_of B chapters (fetch_task B W chapters))
            (seq 0 (List.length chapters))).
Proof.
  intros Hw Hd Hp Hwf.
  destruct (@orchestrate_returns B chapters (fetch_task B W chapters)
              (default_threads (cfg st)) (completion W) Hw Hp
              (fun i _ => fetch_task_settled B W chapters i) Hwf)
    as [out [Hout Hperm]].
  exists out. split; [exact Hout|]. split; [|split; [|exact Hperm]].
  - unfold orchestrate in Hout. unfold download_chapters.
    unfold bind at 1. unfold get_config at 1. cbn beta iota.
    unfold bind at 1. unfold lift at 1.
    destruct (thread_pool (default_threads (cfg st))) as [[]|e|c];
      cbn [obind] in Hout; try discriminate Hout.
    unfold bind at 1.
    rewrite (@emit_posts_run chapters (dispatch W) st
               (@completion_in_range chapters (dispatch W) Hd)).
    unfold bind at 1. unfold lift at 1.
    destruct (collect B chapters (fetch_task B W chapters) (completion W))
      as [l|e|c]; cbn [obind] in Hout; try discriminate Hout.
    unfold lift. now rewrite Hout.
  - rewrite <- (map_nth_seq (fun c => EvPostDown (item_id c)) chapters
                  no_chapter).
    apply (Permutation_map (post_event chapters)). exact Hd.
Qed.

(** X14. With a thread count of at least 1, the pool block of
    [download_novel] sends one request per chapter, in whatever order
    the workers get to them, changes nothing else in the state and
    returns one record per chapter: since [download_chapter] never
    raises, no task can fail the block. *)
Theorem download_chapters_requests_each_once
        B W (chapters : list chapter) (st : state) :
  (1 <= default_threads (cfg st))%Z ->
  dispatch_order (List.length chapters) (dispatch W) ->
  completion_order (List.length chapters) (completion W) ->
  wf_titles chapters ->
  exists out requests,
    download_chapters B W chapters st
    = (Ok out,
       {| cfg := cfg st;
          book_info_cache := book_info_cache st;
          trace := trace st ++ requests |})
    /\ Permutation requests
         (map (fun c => EvPostDown (item_id c)) chapters)
    /\ Permutation out
         (map (record_of B chapters (fetch_task B W chapters))
            (seq 0 (List.length chapters))).
Proof.
  intros Hw Hd Hp Hwf.
  destruct (@download_chapters_run B W chapters st Hw Hd Hp Hwf)
    as [out [_ [Hrun [Hposts Hperm]]]].
  exists out, (map (post_event chapters) (dispatch W)). auto.
Qed.

Lemma download_chapters_requests_each_once_witness :
  exists out requests,
    download_chapters ascii_builtins sample_world three_chapters
      initial_state
    = (Ok out,
       {| cfg := DEFAULT_CONFIG;
          book_info_cache := [];
          trace := requests |})
    /\ Permutation requests
         [EvPostDown (JStr (u "7001")); EvPostDown (JStr (u "7002"));
          EvPostDown (JStr (u "7003"))].
Proof.
  destruct (@download_chapters_requests_each_once ascii_builtins sample_world
              three_chapters initial_state)
    as [out [requests [Hrun [Hposts _]]]].
  - cbn. lia.
  - unfold dispatch_order. cbn. apply perm_skip, perm_swap.
  - unfold completion_order. cbn.
    eapply perm_trans; [apply perm_swap|apply perm_skip, perm_swap].
  - repeat constructor.
  - exists out, requests. split; [exact Hrun|exact Hposts].
Defined.

(** ** The EPUB builder *)

(** X15. The chapter loop of [build_epub] emits the pages of the records
    with a non-empty content, in order, and numbers each page by the
    position of its record in the whole list: a skipped record leaves a
    gap in the numbering. *)
Theorem epub_chapters_numbering B (l : list chap_content) (i : nat) :
  epub_chapters B i l
  = map (fun p => chapter_page B (fst p) (snd p))
        (filter (fun p => has_content (snd p))
           (combine (seq i (List.length l)) l)).
Proof.
  revert i. induction l as [|r t IH]; intros i; [reflexivity|].
  cbn [epub_chapters List.length seq combine filter snd].
  unfold has_content at 1.
  destruct (cc_content r); cbn [map fst snd]; now rewrite IH.
Qed.

(** X16. [build_epub] calls [replace] on the summary: when the summary is
    not a string (a null abstract in the API answer), it raises
    [AttributeError] before the book is written, after the cover request
    at most. *)
Theorem build_epub_needs_string_summary
        B W (m : metadata) (chapters : list chap_content) (path : pystr)
        (st : state) :
  (forall s, summary m <> JStr s) ->
  exists st',
    build_epub B W m chapters path st
    = (Raise (AttributeError (summary m) (u "replace")), st')
    /\ (trace st' = trace st
        \/ trace st' = trace st ++ [EvGetCover (cover_url m)]).
Proof.
  intros Hs.
  assert (intro_page B m = Raise (AttributeError (summary m) (u "replace")))
    as Hi.
  { unfold intro_page. destruct (summary m) eqn:E; try reflexivity.
    now destruct (Hs s). }
  unfold build_epub, fetch_cover, bind, get_config, lift, emit, ret.
  rewrite Hi. cbn.
  destruct (save_cover (cfg st) && truthy (cover_url m)); cbn.
  - destruct (get_cover W (cover_url m)) as [e|resp]; cbn.
    + eexists. split; [reflexivity|]. now right.
    + destruct (status_code resp =? 200)%Z; cbn;
        eexists; (split; [reflexivity|]); now right.
  - eexists. split; [reflexivity|]. now left.
Qed.

Lemma build_epub_needs_string_summary_witness :
  fst (build_epub ascii_builtins offline_world
         (book (JStr (u "三体")) (JStr (u "刘慈欣")) JNull)
         [result_of "One" "text-0"] (u "download/x.epub") initial_state)
  = Raise (AttributeError JNull (u "replace")).
Proof.
  destruct (@build_epub_needs_string_summary ascii_builtins offline_world
              (book (JStr (u "三体")) (JStr (u "刘慈欣")) JNull)
              [result_of "One" "text-0"] (u "download/x.epub") initial_state)
    as [st' [Hrun _]].
  - intros s. discriminate.
  - now rewrite Hrun.
Defined.

(** X17. The cover request of [build_epub] never fails the build. The
    request is sent exactly when covers are to be saved and the metadata
    has a non-empty cover address, and nothing else is done; a cover is
    returned exactly when that request was sent and answered with status
    200, and it is then the content of the answer under the name
    [cover.jpg]. A request that raises or another status gives no
    cover. *)
Theorem fetch_cover_best_effort W (m : metadata) (st : state) :
  exists r,
    fetch_cover W m st
    = (Ok r,
       {| cfg := cfg st;
          book_info_cache := book_info_cache st;
          trace := trace st
                     ++ (if (save_cover (cfg st) && truthy (cover_url m))%bool
                         then [EvGetCover (cover_url m)]
                         else []) |})
    /\ (forall name data,
           r = Some (name, data) <->
           save_cover (cfg st) = true
           /\ truthy (cover_url m) = true
           /\ name = u "cover.jpg"
           /\ exists resp,
               get_cover W (cover_url m) = inr resp
               /\ status_code resp = 200%Z
               /\ data = content resp).
Proof.
  unfold fetch_cover, bind, get_config, emit, ret.
  destruct (save_cover (cfg st)) eqn:Hsave;
    destruct (truthy (cover_url m)) eqn:Hurl; cbn;
    try (exists None; rewrite app_nil_r; split; [now destruct st|];
         intros name data; split;
         [discriminate|intros [H1 [H2 _]]; discriminate]).
  destruct (get_cover W (cover_url m)) as [e|resp] eqn:Hg; cbn.
  - exists None. split; [reflexivity|]. intros name data.
    split; [discriminate|].
    intros [_ [_ [_ [resp [Hresp _]]]]]. discriminate Hresp.
  - destruct (Z.eqb_spec (status_code resp) 200) as [H200|H200]; cbn.
    + eexists. split; [reflexivity|]. intros name data. split.
      * intros Hr. inversion Hr; subst. eauto 10.
      * intros [_ [_ [-> [resp' [Hresp [_ ->]]]]]].
        inversion Hresp; subst. reflexivity.
    + exists None. split; [reflexivity|]. intros name data.
      split; [discriminate|].
      intros [_ [_ [_ [resp' [Hresp [Hst _]]]]]].
      inversion Hresp; subst. contradiction.
Qed.

(** ** The thread count on the command line *)

Lemma ascii_digit_range (c : N) :
  ascii_digit c = true -> (48 <= c <= 57)%N.
Proof.
  unfold ascii_digit. intros H. apply andb_prop in H as [H1 H2].
  apply N.leb_le in H1, H2. lia.
Qed.

Section IntFacts.

Variable B : Builtins.

Lemma to_ascii_decimal_ascii (s : pystr) :
  Forall (fun c => (c < 127)%N) s -> to_ascii_decimal B s = Some s.
Proof.
  induction s as [|c t IH]; intros Hs; [reflexivity|].
  inversion Hs as [|? ? Hc Ht]; subst. cbn [to_ascii_decimal].
  apply N.ltb_lt in Hc. rewrite Hc. now rewrite (IH Ht).
Qed.

Lemma scan_digits_numeral (ds : pystr) (prev : N) (acc : Z) (n : nat) :
  Forall (fun c => ascii_digit c = true) ds ->
  ds <> [] \/ prev <> 95%N ->
  scan_digits prev acc n ds
  = Some (fold_left (fun a c => (a * 10 + Z.of_N (c - 48))%Z) ds acc,
          n + List.length ds, []).
Proof.
  revert prev acc n. induction ds as [|c t IH]; intros prev acc n Hd Hne.
  - destruct Hne as [Hne|Hne]; [now destruct Hne|]. cbn.
    destruct (N.eqb_spec prev 95); [contradiction|].
    now rewrite Nat.add_0_r.
  - inversion Hd as [|? ? Hc Ht]; subst. cbn [scan_digits]. rewrite Hc.
    rewrite (IH c _ (S n) Ht).
    + cbn [fold_left List.length]. now rewrite Nat.add_succ_r.
    + right. apply ascii_digit_range in Hc. lia.
Qed.

Lemma unsigned_int_numeral (ds : pystr) :
  ds <> [] ->
  Forall (fun c => ascii_digit c = true) ds ->
  List.length ds <= 640 ->
  unsigned_int B ds = Some (decimal_value ds).
Proof.
  intros Hne Hd Hlen. destruct ds as [|c t]; [now destruct Hne|].
  unfold unsigned_int.
  assert (ascii_digit c = true) as Hc by now inversion Hd.
  apply ascii_digit_range in Hc.
  destruct (N.eqb_spec c 95); [lia|].
  rewrite (@scan_digits_numeral (c :: t) 0%N 0%Z 0 Hd (or_introl Hne)).
  cbn [Nat.add skip_spaces]. destruct (List.length (c :: t)) eqn:El;
    [discriminate|].
  unfold digits_within_limit.
  destruct (Nat.ltb_spec 640 (S n0)) as [Hgt|_]; [lia|].
  now rewrite andb_false_r.
Qed.

Lemma skip_spaces_digit (c : N) (t : pystr) :
  ascii_digit c = true -> skip_spaces (c :: t) = c :: t.
Proof.
  intros Hc. apply ascii_digit_range in Hc. cbn [skip_spaces].
  unfold ascii_space.
  destruct (N.leb_spec 9 c); destruct (N.leb_spec c 13);
    destruct (N.eqb_spec c 32); cbn; try reflexivity; lia.
Qed.

Lemma digits_are_ascii (ds : pystr) :
  Forall (fun c => ascii_digit c = true) ds ->
  Forall (fun c => (c < 127)%N) ds.
Proof.
  intros H. eapply Forall_impl; [|exact H]. intros c Hc.
  apply ascii_digit_range in Hc. lia.
Qed.

(** [int] of a numeral: a non-empty string of at most 640 ASCII digits,
    with or without a minus sign. *)
Lemma py_int_numeral (neg : bool) (ds : pystr) :
  ds <> [] ->
  Forall (fun c => ascii_digit c = true) ds ->
  List.length ds <= 640 ->
  py_int B ((if neg then [45%N] else []) ++ ds)
  = Some (if neg then (- decimal_value ds)%Z else decimal_value ds).
Proof.
  intros Hne Hd Hlen. unfold py_int.
  pose proof (digits_are_ascii Hd) as Ha.
  destruct neg; cbn [app].
  - rewrite to_ascii_decimal_ascii by (constructor; [lia|exact Ha]).
    assert (skip_spaces (45%N :: ds) = 45%N :: ds) as -> by reflexivity.
    cbv beta iota. now rewrite (@unsigned_int_numeral ds Hne Hd Hlen).
  - rewrite to_ascii_decimal_ascii by exact Ha.
    destruct ds as [|c t]; [now destruct Hne|].
    assert (ascii_digit c = true) as Hc by now inversion Hd.
    rewrite (@skip_spaces_digit c t Hc).
    pose proof (@ascii_digit_range c Hc) as Hr.
    assert (c = 48 \/ c = 49 \/ c = 50 \/ c = 51 \/ c = 52 \/ c = 53
            \/ c = 54 \/ c = 55 \/ c = 56 \/ c = 57)%N as Hcases by lia.
    destruct Hcases as [->|[->|[->|[->|[->|[->|[->|[->|[->| ->]]]]]]]]];
      cbv beta iota;
      now rewrite (@unsigned_int_numeral _ Hne Hd Hlen).
Qed.

End IntFacts.

Lemma split_go_no_sep (sep : N) (cur v : pystr) :
  (forall c, In c v -> c <> sep) ->
  Str.split_go sep cur v = [rev cur ++ v].
Proof.
  revert cur. induction v as [|c t IH]; intros cur Hv; cbn [Str.split_go].
  - now rewrite app_nil_r.
  - destruct (N.eqb_spec c sep) as [Heq|_].
    + now destruct (Hv c (or_introl eq_refl)).
    + rewrite IH by (intros x Hx; apply Hv; now right).
      cbn [rev]. now rewrite <- app_assoc.
Qed.

(** X18. [--threads=N] with N a numeral (a non-empty string of at most
    640 ASCII digits, with or without a minus sign) sets the thread count
    to the value of N, zero and negative values included, and leaves the
    other settings alone. *)
Theorem apply_arg_threads_numeral B (c : config) (neg : bool) (ds : pystr) :
  ds <> [] ->
  Forall (fun c => ascii_digit c = true) ds ->
  List.length ds <= 640 ->
  apply_arg B c (u "--threads=" ++ (if neg then [45%N] else []) ++ ds)
  = with_threads c (if neg then (- decimal_value ds)%Z else decimal_value ds).
Proof.
  intros Hne Hd Hlen. unfold apply_arg.
  set (v := (if neg then [45%N] else []) ++ ds).
  assert (forall x, In x v -> x <> 61%N) as Hv.
  { intros x Hx. apply in_app_or in Hx as [Hx|Hx].
    - destruct neg; [|easy]. destruct Hx as [<-|[]]. discriminate.
    - rewrite Forall_forall in Hd. apply Hd, ascii_digit_range in Hx. lia. }
  change (u "--threads=")
    with [45; 45; 116; 104; 114; 101; 97; 100; 115; 61]%N.
  change (u "--txt") with [45; 45; 116; 120; 116]%N.
  change (u "--epub") with [45; 45; 101; 112; 117; 98]%N.
  destruct (pystr_eqb _ [45; 45; 116; 120; 116]%N) eqn:E1;
    [apply pystr_eqb_eq in E1; discriminate E1|].
  destruct (pystr_eqb _ [45; 45; 101; 112; 117; 98]%N) eqn:E2;
    [apply pystr_eqb_eq in E2; discriminate E2|].
  change (Str.startswith [45; 45; 116; 104; 114; 101; 97; 100; 115; 61]%N
            ([45; 45; 116; 104; 114; 101; 97; 100; 115; 61]%N ++ v))
    with true. cbv iota.
  change (Str.split 61 ([45; 45; 116; 104; 114; 101; 97; 100; 115; 61]%N ++ v))
    with ([45; 45; 116; 104; 114; 101; 97; 100; 115]%N
            :: Str.split_go 61 [] v).
  rewrite (@split_go_no_sep 61%N [] v Hv). cbn [nth rev app].
  unfold v. now rewrite (@py_int_numeral B neg ds Hne Hd Hlen).
Qed.

Lemma apply_arg_threads_numeral_witness :
  default_threads (apply_arg ascii_builtins DEFAULT_CONFIG (u "--threads=-3"))
  = (-3)%Z.
Proof.
  change (u "--threads=-3")
    with (u "--threads=" ++ [45%N] ++ u "3").
  rewrite (@apply_arg_threads_numeral ascii_builtins DEFAULT_CONFIG true
             (u "3")).
  - reflexivity.
  - discriminate.
  - repeat constructor.
  - change (List.length (u "3")) with 1. lia.
Defined.

(** X19. The argument loop of [main] changes nothing but the format and
    the thread count, and the format only to [txt] or [epub]. *)
Theorem apply_args_touches_format_and_threads
        B (args : list pystr) (c : config) :
  api_timeout (apply_args B c args) = api_timeout c
  /\ show_colors (apply_args B c args) = show_colors c
  /\ save_cover (apply_args B c args) = save_cover c
  /\ (default_format (apply_args B c args) = default_format c
      \/ default_format (apply_args B c args) = u "txt"
      \/ default_format (apply_args B c args) = u "epub").
Proof.
  unfold apply_args. revert c. induction args as [|a rest IH]; intros c.
  - cbn. auto.
  - cbn [fold_left]. destruct (IH (apply_arg B c a)) as [Ht [Hs [Hv Hf]]].
    assert (api_timeout (apply_arg B c a) = api_timeout c
            /\ show_colors (apply_arg B c a) = show_colors c
            /\ save_cover (apply_arg B c a) = save_cover c
            /\ (default_format (apply_arg B c a) = default_format c
                \/ default_format (apply_arg B c a) = u "txt"
                \/ default_format (apply_arg B c a) = u "epub")) as Hone.
    { unfold apply_arg.
      destruct (pystr_eqb a (u "--txt")); [cbn; auto 10|].
      destruct (pystr_eqb a (u "--epub")); [cbn; auto 10|].
      destruct (Str.startswith (u "--threads=") a); [|auto 10].
      match goal with
      | |- context [py_int B ?x] => destruct (py_int B x)
      end; cbn; auto 10. }
    destruct Hone as [Ht1 [Hs1 [Hv1 Hf1]]].
    rewrite Ht, Hs, Hv. repeat split; try assumption.
    destruct Hf as [Hf|[Hf|Hf]]; rewrite Hf; auto.
Qed.

(** ** A whole run *)

Lemma io_events_posts (chapters : list chapter) (order : list nat) :
  io_events (map (post_event chapters) order)
  = map (post_event chapters) order.
Proof.
  induction order as [|i rest IH]; [reflexivity|].
  cbn. unfold io_events in IH. now rewrite IH.
Qed.

#[local] Arguments download_chapters : simpl never.

Lemma first_surrogate_app (s t : pystr) :
  first_surrogate (s ++ t) = None <->
  first_surrogate s = None /\ first_surrogate t = None.
Proof.
  induction s as [|c s IH]; cbn [app first_surrogate].
  - tauto.
  - destruct (surrogate c); [split; [discriminate|intros [H _]; discriminate]|].
    destruct (first_surrogate (s ++ t)); destruct (first_surrogate s).
    + split; [discriminate|intros [H _]; discriminate].
    + split; [discriminate|]. intros [_ H]. destruct IH as [_ IH].
      specialize (IH (conj eq_refl H)). discriminate.
    + split; [|reflexivity]. intros _. destruct IH as [IH _].
      destruct (IH eq_refl) as [H _]. discriminate.
    + split; [|reflexivity]. intros _. destruct IH as [IH _].
      destruct (IH eq_refl) as [_ H]. now split.
Qed.

(** Writes without a surrogate all succeed. *)
Lemma write_all_clean (written : pystr) (writes : list pystr) :
  first_surrogate (List.concat writes) = None ->
  write_all written writes = (written ++ List.concat writes, None).
Proof.
  revert written. induction writes as [|s rest IH]; intros written Hs.
  - cbn. now rewrite app_nil_r.
  - cbn [List.concat] in Hs. apply first_surrogate_app in Hs as [H1 H2].
    cbn [write_all List.concat]. rewrite H1, (IH _ H2).
    now rewrite app_assoc.
Qed.

(** A surrogate in one of the writes stops them with the exception. *)
Lemma write_all_fails (written : pystr) (writes : list pystr) :
  first_surrogate (List.concat writes) <> None ->
  exists text s i,
    write_all written writes = (text, Some (UnicodeEncodeError s i)).
Proof.
  revert written. induction writes as [|s rest IH]; intros written Hs.
  - now destruct Hs.
  - cbn [write_all]. destruct (first_surrogate s) as [i|] eqn:E; [eauto|].
    apply IH. intros Hrest. apply Hs. cbn [List.concat].
    apply first_surrogate_app. now split.
Qed.

(** A run that fetches the metadata and a chapter list with at least one
    chapter, with a valid thread count, reaches the builder with the
    records the orchestrator returns, after the metadata request, the
    directory request and the chapter requests. *)
Lemma download_novel_reaches_builder
        B W (book_id : pystr) (st : state) (m : metadata)
        (chapters : list chapter) (a : pystr) :
  cache_lookup book_id (book_info_cache st) = None ->
  read_metadata B book_id (get_info W book_id) = Ok (Some m) ->
  read_chapter_list (get_directory W book_id) = Ok (Some chapters) ->
  chapters <> [] ->
  author m = JStr a ->
  (1 <= default_threads (cfg st))%Z ->
  dispatch_order (List.length chapters) (dispatch W) ->
  completion_order (List.length chapters) (completion W) ->
  wf_titles chapters ->
  exists out fname st1 prefix,
    orchestrate B (default_threads (cfg st)) chapters
      (fetch_task B W chapters) (completion W) = Ok out
    /\ Permutation out
         (map (record_of B chapters (fetch_task B W chapters))
            (seq 0 (List.length chapters)))
    /\ output_name m book_id = Ok fname
    /\ cfg st1 = cfg st
    /\ trace st1 = trace st ++ prefix
    /\ io_events prefix
       = EvGetInfo book_id :: EvGetDirectory book_id
           :: map (post_event chapters) (dispatch W)
    /\ download_novel B W book_id st
       = ((if pystr_eqb (default_format (cfg st)) (u "epub")
           then build_epub B W m out (output_path (cfg st) fname)
           else build_txt B m out (output_path (cfg st) fname)) ;;;
          print (nl ++ Colors.wrap (cfg st) (u "下载完成！") Colors.GREEN
                   ++ u "文件保存至："
                   ++ abspath B (output_path (cfg st) fname))) st1.
Proof.
  intros Hc Hm Hl Hne Ha Hw Hd Hp Hwf.
  assert (exists n, book_name m = JStr n) as [n Hn].
  { unfold read_metadata in Hm. obind_inv Hm. inversion Hm; subst.
    eapply read_book_data_fields; eassumption. }
  assert (exists fname, output_name m book_id = Ok fname) as [fname Hf].
  { unfold output_name. rewrite Hn, Ha. cbn. eauto. }
  destruct chapters as [|c0 rest]; [now destruct Hne|].
  unfold download_novel.
  unfold get_book_metadata, get_chapter_list, bind at 1 2 3 4 5 6 7 8,
    get_config, try_except, print, emit, lift, cache_store, ret.
  cbn. rewrite Hc. cbn. rewrite Hm. cbn. rewrite Hl. cbn.
  match goal with
  | |- context [bind (download_chapters B W (c0 :: rest)) _ ?s] =>
      destruct (@download_chapters_run B W (c0 :: rest) s Hw Hd Hp Hwf)
        as [out [Hout [Hrun [_ Hperm]]]]
  end.
  exists out, fname. unfold bind at 1. rewrite Hrun.
  unfold bind at 1. rewrite Hf.
  eexists. eexists.
  split; [exact Hout|]. split; [exact Hperm|]. split; [reflexivity|].
  split; [|split; [|split]].
  4: reflexivity.
  - reflexivity.
  - cbn. repeat (rewrite <- app_assoc; cbn [app]). reflexivity.
  - unfold io_events. cbn.
    pose proof (io_events_posts (c0 :: rest) (dispatch W)) as Hio.
    unfold io_events in Hio. rewrite Hio. reflexivity.
Qed.
(** X20. With a format other than [epub] selected, a book whose metadata
    and chapter list are fetched, with at least one chapter, a string for
    author and a thread count of at least 1, is written as one text file.
    With [out] the records the pool block returns, sorted: when the
    document of [out] holds no surrogate, the run performs the metadata
    request, the directory request, one request per chapter and one write
    of exactly that document into [download/<name>.<format>], and returns
    normally; when it holds one, the write raises [UnicodeEncodeError]
    and the run ends with it. *)
Theorem download_novel_writes_text
        B W (book_id : pystr) (st : state) (m : metadata)
        (chapters : list chapter) (a : pystr) :
  cache_lookup book_id (book_info_cache st) = None ->
  read_metadata B book_id (get_info W book_id) = Ok (Some m) ->
  read_chapter_list (get_directory W book_id) = Ok (Some chapters) ->
  chapters <> [] ->
  author m = JStr a ->
  pystr_eqb (default_format (cfg st)) (u "epub") = false ->
  (1 <= default_threads (cfg st))%Z ->
  dispatch_order (List.length chapters) (dispatch W) ->
  completion_order (List.length chapters) (completion W) ->
  wf_titles chapters ->
  exists out fname,
    orchestrate B (default_threads (cfg st)) chapters
      (fetch_task B W chapters) (completion W) = Ok out
    /\ output_name m book_id = Ok fname
    /\ (first_surrogate (txt_document B m out) = None ->
        exists st' new,
          download_novel B W book_id st = (Ok tt, st')
          /\ trace st' = trace st ++ new
          /\ io_events new
             = EvGetInfo book_id :: EvGetDirectory book_id
                 :: map (post_event chapters) (dispatch W)
                 ++ [EvWriteTxt (u "download/" ++ fname ++ u "."
                                   ++ default_format (cfg st))
                       (txt_document B m out)])
    /\ (first_surrogate (txt_document B m out) <> None ->
        exists text i st',
          download_novel B W book_id st
          = (Raise (UnicodeEncodeError text i), st')).
Proof.
  intros Hc Hm Hl Hne Ha Hfmt Hw Hd Hp Hwf.
  destruct (@download_novel_reaches_builder B W book_id st m chapters a
              Hc Hm Hl Hne Ha Hw Hd Hp Hwf)
    as [out [fname [st1 [prefix [Hout [_ [Hf [Hcfg [Htr [Hio Hrun]]]]]]]]]].
  exists out, fname. split; [exact Hout|]. split; [exact Hf|].
  rewrite Hrun, Hfmt. unfold build_txt, txt_document.
  unfold bind at 1 2. unfold get_config at 1. split.
  - intros Hclean. rewrite (@write_all_clean [] _ Hclean). cbn [app].
    unfold bind, emit, print, emit. cbn.
    eexists. eexists. split; [reflexivity|]. split.
    + rewrite Htr, <- !app_assoc. reflexivity.
    + unfold io_events in *. rewrite filter_app, Hio. reflexivity.
  - intros Hbad.
    destruct (@write_all_fails [] _ Hbad) as [text [s [i Hwrite]]].
    rewrite Hwrite. unfold bind, emit, lift. cbn. eauto.
Qed.

Lemma download_novel_writes_text_witness :
  exists st',
    download_novel ascii_builtins sample_world sample_book_id txt_state
    = (Ok tt, st').
Proof.
  edestruct (@download_novel_writes_text ascii_builtins sample_world
               sample_book_id txt_state)
    as [out [fname [Hout [_ [Hclean _]]]]].
  - reflexivity.
  - reflexivity.
  - reflexivity.
  - discriminate.
  - reflexivity.
  - reflexivity.
  - change (default_threads (cfg txt_state)) with 4%Z. lia.
  - unfold dispatch_order. cbn. apply perm_skip, perm_swap.
  - unfold completion_order. cbn.
    eapply perm_trans; [apply perm_swap|apply perm_skip, perm_swap].
  - repeat constructor.
  - vm_compute in Hout. injection Hout as <-.
    destruct Hclean as [st' [new [Hrun _]]]; [vm_compute; reflexivity|].
    exists st'. exact Hrun.
Defined.





(** ** Failures of the directory request *)

(** X22. The two fatal paths of [get_chapter_list]: a request that
    raises is reported on one line, with the description of the
    exception, before the exit with status 1; an API code other than 0
    leads to the same exit without a word. *)
Theorem get_chapter_list_failures B W (book_id : pystr) (st : state) :
  (forall e,
      get_directory W book_id = inl e ->
      get_chapter_list B W book_id st
      = (Exit 1,
         {| cfg := cfg st;
            book_info_cache := book_info_cache st;
            trace := trace st
                       ++ [EvGetDirectory book_id;
                           EvPrint (Colors.wrap (cfg st)
                                      (u "获取章节列表失败") Colors.RED
                                      ++ u ": " ++ exn_str B e)] |}))
  /\ (forall resp kv,
         get_directory W book_id = inr resp ->
         json_body resp = inr (JObj kv) ->
         py_eq (match lookup (u "code") kv with
                | Some c => c
                | None => JNull
                end) (JInt 0) = false ->
         get_chapter_list B W book_id st
         = (Exit 1,
            {| cfg := cfg st;
               book_info_cache := book_info_cache st;
               trace := trace st ++ [EvGetDirectory book_id] |})).
Proof.
  split.
  - intros e He. unfold get_chapter_list, bind, get_config, try_except,
      emit, lift, print, emit, ret, sys_exit, lift.
    rewrite He. cbn. now rewrite <- app_assoc.
  - intros resp kv Hr Hb Hcode.
    unfold get_chapter_list, bind, get_config, try_except,
      emit, lift, print, emit, ret, sys_exit, lift.
    rewrite Hr. unfold read_chapter_list, resp_json. cbn. rewrite Hb. cbn.
    now rewrite Hcode.
Qed.

Lemma get_chapter_list_failures_witness :
  exists st',
    get_chapter_list ascii_builtins offline_world sample_book_id initial_state
    = (Exit 1, st')
    /\ List.length (trace st') = 2.
Proof.
  destruct (@get_chapter_list_failures ascii_builtins offline_world
              sample_book_id initial_state) as [Hraise _].
  eexists. split; [apply Hraise; reflexivity|reflexivity].
Defined.

(** ** Replacements *)

Lemma replace_char (x : N) (new s : pystr) :
  Str.replace [x] new s
  = flat_map (fun c => if (c =? x)%N then new else [c]) s.
Proof.
  unfold Str.replace. induction s as [|c t IH]; [reflexivity|].
  cbn [Str.replace_scan Str.startswith flat_map List.length Nat.sub].
  rewrite (N.eqb_sym x c).
  destruct (c =? x)%N; cbn [andb]; now rewrite IH.
Qed.

(** X23. In the page of a chapter the text of the record appears with
    every newline replaced by [<br/>] and every other character kept, so
    the text part of the page holds no newline. *)
Theorem chapter_page_line_breaks B (i : nat) (chap : chap_content) :
  eh_content (chapter_page B i chap)
  = u "<h2>第" ++ Str.of_nat (i + 1) ++ u "章：" ++ py_str B (cc_title chap)
      ++ u "</h2><p>"
      ++ flat_map (fun c => if (c =? 10)%N then u "<br/>" else [c])
           (cc_content chap)
      ++ u "</p>"
  /\ ~ In 10%N (flat_map (fun c => if (c =? 10)%N then u "<br/>" else [c])
                  (cc_content chap)).
Proof.
  split.
  - unfold chapter_page, html. cbn [eh_content]. unfold nl, br.
    now rewrite replace_char.
  - intros Hin. apply in_flat_map in Hin as [c [_ Hc]].
    destruct (c =? 10)%N eqn:E.
    + vm_compute in Hc. repeat (destruct Hc as [Hc|Hc]; [discriminate|]).
      exact Hc.
    + destruct Hc as [Hc|[]]. subst c. discriminate E.
Qed.

Lemma startswith_head (h : N) (o s : pystr) :
  Str.startswith (h :: o) s = true -> In h s.
Proof.
  destruct s as [|c t]; cbn; [discriminate|].
  intros H. apply andb_prop in H as [H _]. apply N.eqb_eq in H. now left.
Qed.

Lemma replace_absent (h : N) (o new s : pystr) :
  ~ In h s -> Str.replace (h :: o) new s = s.
Proof.
  unfold Str.replace. induction s as [|c t IH]; intros Hs; [reflexivity|].
  cbn [Str.replace_scan].
  destruct (Str.startswith (h :: o) (c :: t)) eqn:E.
  - apply startswith_head in E. contradiction.
  - rewrite IH; [reflexivity|]. intros Hin. apply Hs. now right.
Qed.

Lemma strip_pidx_absent B (s : pystr) :
  ~ In 60%N s -> strip_pidx B s = s.
Proof.
  unfold strip_pidx. induction s as [|c t IH]; intros Hs; [reflexivity|].
  cbn [pidx_scan].
  assert (pidx_match B (c :: t) = None) as ->.
  { unfold pidx_match.
    destruct (Str.startswith (u "<p idx=" ++ [quote]) (c :: t)) eqn:E;
      [|reflexivity].
    change (u "<p idx=" ++ [quote])
      with (60%N :: [112; 32; 105; 100; 120; 61; 34]%N) in E.
    apply startswith_head in E. contradiction. }
  rewrite IH; [reflexivity|]. intros Hin. apply Hs. now right.
Qed.

(** X24. A chapter text holding neither [<] nor [&] has nothing to
    replace and no tag to remove: [download_chapter] returns it trimmed
    and otherwise unchanged. *)
Theorem clean_content_plain_text B (raw : pystr) :
  ~ In 60%N raw -> ~ In 38%N raw ->
  clean_content B raw = Str.strip raw
  /\ download_chapter B (inr (chapter_response raw))
     = Ok (Some (Str.strip raw)).
Proof.
  intros Hlt Hamp.
  assert (clean_content B raw = Str.strip raw) as Hclean.
  { unfold clean_content.
    change (u "</p>") with (60%N :: [47; 112; 62]%N).
    change (u "&quot;") with (38%N :: [113; 117; 111; 116; 59]%N).
    change (u "&amp;") with (38%N :: [97; 109; 112; 59]%N).
    rewrite (@replace_absent 60%N _ nl raw Hlt).
    rewrite (@replace_absent 38%N _ [quote] raw Hamp).
    rewrite (@replace_absent 38%N _ (u "&") raw Hamp).
    now rewrite (@strip_pidx_absent B raw Hlt). }
  split; [exact Hclean|].
  change (download_chapter B (inr (chapter_response raw)))
    with (@Ok (option pystr) (Some (clean_content B raw))).
  now rewrite Hclean.
Qed.

Lemma clean_content_plain_text_witness :
  download_chapter ascii_builtins (inr (chapter_response (u "  Hello. ")))
  = Ok (Some (u "Hello.")).
Proof.
  refine (proj2 (@clean_content_plain_text ascii_builtins (u "  Hello. ")
                   _ _)).
  - vm_compute. intros H.
    repeat (destruct H as [H|H]; [discriminate|]). exact H.
  - vm_compute. intros H.
    repeat (destruct H as [H|H]; [discriminate|]). exact H.
Defined.

(** ** The scanners on sample inputs *)

Example strip_pidx_sample :
  strip_pidx ascii_builtins
    (u "a<p idx=" ++ [quote] ++ u "12" ++ [quote] ++ u ">b<p idx="
       ++ [quote; quote] ++ u ">c")
  = u "ab<p idx=" ++ [quote; quote] ++ u ">c".
Proof. reflexivity. Qed.

Example extract_book_id_samples :
  extract_book_id_from_url ascii_builtins
    (u "ab123456789012345678901234567 x")
  = Some (u "12345678901234567890")
  /\ extract_book_id_from_url ascii_builtins (u "123456789 1234567890")
     = Some (u "1234567890")
  /\ extract_book_id_from_url ascii_builtins (u "123456789 ") = None.
Proof. repeat split; reflexivity. Qed.

Example py_int_samples :
  map (py_int ascii_builtins)
      [u "1_0"; u "+ 5"; u "_1"; u "1_"; u "1__0"; u "00"; u "-0"; u "+7";
       u ""; u "+"; u "5 "; u "　5"; u " -12_3 "; 28%N :: u "5"]
  = [Some 10; None; None; None; None; Some 0; Some 0; Some 7;
     None; None; Some 5; Some 5; Some (-123); None]%Z.
Proof. reflexivity. Qed.

Example sanitize_filename_sample :
  sanitize_filename (JStr (u " a\b/c*d?e:f<h>i|j " ++ [quote]))
  = Ok (u "abcdefhij").
Proof. reflexivity. Qed.

(** ** Stability of the sort *)

Lemma insert_keyed_filter (k : nat) (x : nat * chap_content) l :
  filter (fun p => (fst p =? k)%nat) (insert_keyed x l)
  = filter (fun p => (fst p =? k)%nat) (x :: l).
Proof.
  induction l as [|y t IH]; [reflexivity|]. cbn [insert_keyed].
  destruct (Nat.ltb_spec (fst y) (fst x)) as [Hlt|_]; [|reflexivity].
  cbn [filter] in *. rewrite IH.
  destruct (Nat.eqb_spec (fst x) k) as [Hx|_]; [|reflexivity].
  destruct (Nat.eqb_spec (fst y) k) as [Hy|_]; [lia|reflexivity].
Qed.

Lemma sort_keyed_filter (k : nat) l :
  filter (fun p => (fst p =? k)%nat) (sort_keyed l)
  = filter (fun p => (fst p =? k)%nat) l.
Proof.
  induction l as [|x t IH]; [reflexivity|].
  cbn [sort_keyed fold_right]. rewrite insert_keyed_filter.
  cbn [filter]. fold (sort_keyed t). now rewrite IH.
Qed.

Lemma filter_has_key (chapters : list chapter) (k : nat) l :
  Forall (fun p => sort_key chapters (snd p) = Ok (fst p)) l ->
  filter (has_key chapters k) (map snd l)
  = map snd (filter (fun p => (fst p =? k)%nat) l).
Proof.
  induction l as [|p t IH]; intros Hl; [reflexivity|].
  inversion Hl as [|? ? Hp Ht]; subst. cbn [map filter].
  unfold has_key at 1. rewrite Hp.
  destruct (fst p =? k)%nat; cbn [map]; now rewrite (IH Ht).
Qed.

(** X25. The sort is stable: among the records of one sort key, that is
    of chapters with equal titles, the order in which the tasks completed
    is kept. *)
Theorem equal_titles_keep_completion_order
        B (chapters : list chapter) fetch (max_workers : Z) order out :
  orchestrate B max_workers chapters fetch order = Ok out ->
  exists collected,
    collect B chapters fetch order = Ok collected
    /\ forall k,
        filter (has_key chapters k) out
        = filter (has_key chapters k) collected.
Proof.
  unfold orchestrate, sort_by_title. intros H. obind_inv H.
  inversion H; subst. clear H.
  match goal with
  | Hd : decorate _ _ = Ok ?d |- _ =>
      destruct (decorate_keys _ _ Hd) as [Hsnd Hkeys];
      exists (map snd d); rewrite Hsnd; split; [reflexivity|];
      intros k; rewrite <- Hsnd;
      assert (Forall (fun p => sort_key chapters (snd p) = Ok (fst p))
                (sort_keyed d)) as Hs
        by (apply Forall_forall; intros p Hp;
            rewrite Forall_forall in Hkeys; apply Hkeys;
            apply (Permutation_in _ (sort_keyed_perm d)); exact Hp)
  end.
  rewrite (@filter_has_key chapters k _ Hs),
    (@filter_has_key chapters k _ Hkeys).
  now rewrite sort_keyed_filter.
Qed.

Lemma equal_titles_keep_completion_order_witness :
  filter (has_key repeated_titles 0)
    [result_of "Prologue" "text-2"; result_of "Prologue" "text-0";
     result_of "Chapter 1" "text-1"]
  = [result_of "Prologue" "text-2"; result_of "Prologue" "text-0"].
Proof.
  destruct (@equal_titles_keep_completion_order ascii_builtins
              repeated_titles text_stub 4 [2; 1; 0]
              [result_of "Prologue" "text-2"; result_of "Prologue" "text-0";
               result_of "Chapter 1" "text-1"] eq_refl)
    as [collected [Hc Hk]].
  rewrite (Hk 0). vm_compute in Hc. inversion Hc. reflexivity.
Defined.
